(** * Webhook ingestion and message relay: a shallow embedding

    The development follows the two serverless functions of the relay
    pipeline:

    - [netlify/functions/meta-webhook-verification.js], the subscription
      handshake ([Module Verification]);
    - [netlify/functions/meta-webhook-handler.js], the ingestion endpoint
      with [processMessage] and [extractContextFromVoiceflowResponse]
      ([Module WebhookHandler]);

    and the URL generator of the admin screen,
    [src/pages/admin/AdminWebhookSetup.tsx] ([Module AdminWebhookSetup]),
    whose URLs those two functions serve.

    JavaScript values are embedded as the inductive type [Value]; promises
    that may reject become computations in a state-and-exception monad whose
    state is the history of calls made to the outside world. *)

From stdpp Require Import base strings gmap list pretty.
From Stdlib Require Import Ascii ZArith Lia.

Local Open Scope string_scope.
Local Open Scope list_scope.
#[local] Set Warnings "-register-all".

(** ** JavaScript values *)

(** Numbers are the integers the pipeline handles (timestamps, counts,
    status codes).  An object is the list of its own properties, with
    distinct keys, in the order [Object.entries] yields them. *)
Inductive Value : Type :=
| VUndefined
| VNull
| VBool (b : bool)
| VNum (n : Z)
| VStr (s : string)
| VArr (xs : list Value)
| VObj (props : list (string * Value)).

(** A thrown [Error] is an object; it is represented by its own properties
    ([message], [code], [response], ...). *)
Definition Exn : Type := list (string * Value).

Definition Result (A : Type) : Type := Exn + A.

Definition TypeError (msg : string) : Exn :=
  [("name", VStr "TypeError"); ("message", VStr msg)].

Definition mkError (msg : string) : Exn :=
  [("name", VStr "Error"); ("message", VStr msg)].

(** [ToBoolean]. *)
Definition truthy (v : Value) : bool :=
  match v with
  | VUndefined | VNull => false
  | VBool b => b
  | VNum n => negb (Z.eqb n 0)
  | VStr s => negb (String.eqb s EmptyString)
  | VArr _ | VObj _ => true
  end.

Definition nullish (v : Value) : bool :=
  match v with
  | VUndefined | VNull => true
  | _ => false
  end.

(** Truthiness of a string that may be [undefined]: query parameters, path
    segments, environment variables. *)
Definition truthy_str (o : option string) : bool :=
  match o with
  | Some s => negb (String.eqb s EmptyString)
  | None => false
  end.

Fixpoint assoc (k : string) (props : list (string * Value)) : option Value :=
  match props with
  | [] => None
  | (k', v) :: rest => if String.eqb k k' then Some v else assoc k rest
  end.

(** [v.k] on an own data property; reading through [undefined] or [null]
    throws. Arrays and strings answer [length]. *)
Definition get (v : Value) (k : string) : Result Value :=
  match v with
  | VUndefined => inl (TypeError ("Cannot read properties of undefined (reading '" +:+ k +:+ "')"))
  | VNull => inl (TypeError ("Cannot read properties of null (reading '" +:+ k +:+ "')"))
  | VObj props => inr (default VUndefined (assoc k props))
  | VArr xs => inr (if String.eqb k "length" then VNum (Z.of_nat (length xs)) else VUndefined)
  | VStr s => inr (if String.eqb k "length" then VNum (Z.of_nat (String.length s)) else VUndefined)
  | VBool _ | VNum _ => inr VUndefined
  end.

(** [v === 'lit']. *)
Definition is_str (v : Value) (lit : string) : bool :=
  match v with
  | VStr s => String.eqb s lit
  | _ => false
  end.

Definition of_opt_str (o : option string) : Value :=
  match o with
  | Some s => VStr s
  | None => VUndefined
  end.

(** The character [U+0022], for messages that quote a word. *)
Definition dquote : string := String (ascii_of_nat 34) EmptyString.

(** [s.split('/')]. *)
Fixpoint split_slash (s : string) : list string :=
  match s with
  | EmptyString => [EmptyString]
  | String c rest =>
      match split_slash rest with
      | seg :: segs =>
          if Ascii.eqb c "/"%char then EmptyString :: seg :: segs
          else String c seg :: segs
      | [] => [String c EmptyString]
      end
  end.

(** ** Requests, responses and the console *)

Record Event : Type := {
  httpMethod : string;
  path : string;
  queryStringParameters : option (gmap string string);
  headers : gmap string string;
  body : option string
}.

Inductive Body : Type :=
| BodyText (challenge : option string)   (* a value used as the body as it is *)
| BodyJson (v : Value).                  (* the argument of [JSON.stringify] *)

Record Response : Type := {
  statusCode : Z;
  resp_headers : list (string * string);
  resp_body : option Body
}.

Inductive LogLevel : Type := Log | Warn | Error.

Record LogEntry : Type := {
  level : LogLevel;
  text : string;
  detail : list Value
}.

(** The segments [{userId}] and [{platform}] of
    [/api/webhooks/{userId}/{platform}/...], when the path has that shape. *)
Definition path_params (p : string) : option (string * string) :=
  let pathSegments := split_slash p in
  if bool_decide (5 ≤ length pathSegments)%nat
     && bool_decide (pathSegments !! 2%nat = Some "webhooks") then
    match pathSegments !! 3%nat, pathSegments !! 4%nat with
    | Some u, Some pl => Some (u, pl)
    | _, _ => None
    end
  else None.

(** ** The verification endpoint: [meta-webhook-verification.js] *)

Module Verification.

(** A row of the table [webhook_configs] (columns as the admin screen writes
    them). *)
Record WebhookConfig : Type := {
  id : string;
  user_id : option string;
  platform : option string;
  verification_token : option string;
  is_active : bool
}.

(** What awaiting a query can do besides answering with rows. *)
Inductive Fault : Type :=
| ErrorResult (message : string)    (* resolves with [{ data: null, error }] *)
| Rejects (message : string).       (* the promise rejects *)

(** The data store behind the client. *)
Record Database : Type := {
  webhook_configs : list WebhookConfig;
  fault : option Fault
}.

(** The deployment a function instance is loaded in. *)
Record Deployment : Type := {
  VITE_SUPABASE_URL : option string;
  SUPABASE_SERVICE_KEY : option string;
  createClient_throws : bool;
  database : Database
}.

(** Lines 6-18: the module-level client, [null] unless both credentials are
    set and [createClient] returns. *)
Definition supabase (d : Deployment) : option Database :=
  if truthy_str (VITE_SUPABASE_URL d) && truthy_str (SUPABASE_SERVICE_KEY d) then
    if createClient_throws d then None else Some (database d)
  else None.

(** [.eq(column, value)] on a text column: SQL equality, never true on
    [NULL]. *)
Definition eq_col (column : option string) (value : string) : bool :=
  bool_decide (column = Some value).

(** Lines 86-94: the filters of the query, as a predicate on rows. *)
Definition query (token : string) (userId : option string) (pf : string)
    (c : WebhookConfig) : bool :=
  eq_col (verification_token c) token
  && (if truthy_str userId then eq_col (user_id c) (default EmptyString userId) else true)
  && (if truthy_str (Some pf) && negb (String.eqb pf "all")
      then eq_col (platform c) pf else true).

Definition cors : list (string * string) :=
  [("Access-Control-Allow-Origin", "*");
   ("Access-Control-Allow-Headers", "Content-Type");
   ("Access-Control-Allow-Methods", "GET, OPTIONS")].

Definition json_error (status : Z) (msg : string) : Response :=
  {| statusCode := status; resp_headers := cors;
     resp_body := Some (BodyJson (VObj [("error", VStr msg)])) |}.

Definition say (l : LogLevel) (t : string) (d : list Value) : LogEntry :=
  {| level := l; text := t; detail := d |}.

(** Lines 85-111, once [mode] and [token] have passed the checks. *)
Definition lookup (sb : option Database) (token : string)
    (userId : option string) (pf : string) (challenge : option string)
    : list LogEntry * Response :=
  let filter_logs :=
    (if truthy_str userId
     then [say Log "Filtering by user_id" [of_opt_str userId]] else [])
    ++ (if truthy_str (Some pf) && negb (String.eqb pf "all")
        then [say Log "Filtering by platform" [VStr pf]] else []) in
  let no_match :=
    ([say Log "No matching verification token found" []],
     json_error 401 "Invalid verification token.") in
  match sb with
  | Some db =>
      match fault db with
      | Some (Rejects m) =>
          (* caught at line 113 *)
          (filter_logs ++ [say Error "Error in webhook verification:" [VStr m]],
           json_error 500 "Internal server error during webhook verification.")
      | Some (ErrorResult m) =>
          (filter_logs ++ [say Error "Error querying webhook configurations:" [VStr m]],
           json_error 500 "Error verifying webhook token.")
      | None =>
          match filter (λ c, query token userId pf c) (webhook_configs db) with
          | c :: _ =>
              (filter_logs
                 ++ [say Log "Verification successful for webhook configuration ID" [VStr (id c)]],
               {| statusCode := 200;
                  resp_headers := cors ++ [("Content-Type", "text/plain")];
                  resp_body := Some (BodyText challenge) |})
          | [] => (filter_logs ++ fst no_match, snd no_match)
          end
      end
  | None => no_match
  end.

(** [exports.handler], lines 20-117. *)
Definition handler (sb : option Database) (event : Event) : list LogEntry * Response :=
  if String.eqb (httpMethod event) "OPTIONS" then
    ([], {| statusCode := 204; resp_headers := cors; resp_body := None |})
  else if negb (String.eqb (httpMethod event) "GET") then
    ([], json_error 405 "Method not allowed. Please use GET for webhook verification.")
  else
    let params := default ∅ (queryStringParameters event) in
    let mode := params !! "hub.mode" in
    let token := params !! "hub.verify_token" in
    let challenge := params !! "hub.challenge" in
    let received :=
      say Log "Verification request received:"
        [VStr (path event); of_opt_str mode;
         VStr (if truthy_str token then "[REDACTED]" else "undefined");
         VStr (if truthy_str challenge then default EmptyString challenge else "undefined")] in
    if negb (bool_decide (mode = Some "subscribe")) then
      ([received; say Log "Invalid hub.mode parameter:" [of_opt_str mode]],
       json_error 400 ("Invalid hub.mode parameter. Expected " +:+ dquote +:+ "subscribe" +:+ dquote +:+ "."))
    else if negb (truthy_str token) then
      ([received; say Log "Missing hub.verify_token parameter" []],
       json_error 400 "Missing hub.verify_token parameter.")
    else
      let '(userId, pf, extracted) :=
        match path_params (path event) with
        | Some (u, pl) => (Some u, pl, [say Log "Extracted userId, platform" [VStr u; VStr pl]])
        | None => (None, "all", [])
        end in
      let '(logs, r) := lookup sb (default EmptyString token) userId pf challenge in
      (received :: extracted ++ logs, r).

End Verification.

(** ** The ingestion endpoint: [meta-webhook-handler.js] *)

Module WebhookHandler.

(** *** The outside world *)

(** A query built with the data-store client, as it is when awaited. *)
Inductive Query : Type :=
| Select (table columns : string) (filters : list (string * Value)) (limit : option Z)
| Insert (table : string) (row : list (string * Value))
| Update (table : string) (patch : list (string * Value)) (filters : list (string * Value)).

(** What an awaited query resolves to: [{ data, error }]. *)
Record QueryResult : Type := {
  data : option (list Value);
  error : option Exn
}.

(** The object [contextUpdates] of [extractContextFromVoiceflowResponse]:
    its own properties and its prototype, which is [Object.prototype] for
    an object literal and which an assignment to [__proto__] can replace by
    [null] or by an object or array of the reply. *)
Inductive Prototype : Type :=
| ObjectPrototype
| NoPrototype
| ReplyPrototype (v : Value).

Record ContextUpdates : Type := {
  own : gmap string Value;
  prototype : Prototype
}.

(** An object literal with the properties [m]. *)
Definition literal (m : gmap string Value) : ContextUpdates :=
  {| own := m; prototype := ObjectPrototype |}.

(** Everything the handler does to the outside world, in the order it does
    it.  [Console] and [Sleep] only leave a trace.  The other effects are
    calls that the [World] answers: the data store, the HTTP client,
    [JSON.parse], and the functions of the helper modules
    [./message-processor], [./error-recovery], [./message-queue],
    [./session-manager] and [./webhook-security], which are not among the
    sources and are taken as parameters. *)
Inductive Effect : Type :=
| Console (entry : LogEntry)
| Sleep (ms : Z)
| Db (q : Query)
| ValidateWebhook (headers : gmap string string) (body : option string) (appSecret : string)
| JsonParse (body : option string)
| ProcessInstagramMessage (value : Value)
| QueueMessage (userId platform senderId recipientId message timestamp : Value)
| ProcessPendingMessages (limit : Z)
| GetOrCreateSession (userId senderId platform : Value)
| LinkSessionToConversation (conversationId sessionId : Value)
| ProcessMetaMessage (message platform : Value)
| UpdateSessionContext (sessionId : Value) (updates : ContextUpdates)
| PrepareVoiceflowContext (sessionId : Value) (baseContext : list (string * Value))
| PrepareVoiceflowRequest (processedMessage voiceflowContext : Value)
| AxiosPost (url : string) (payload : Value) (config : list (string * Value))
| ExtendSession (sessionId : Value)
| SaveToDeadLetterQueue (userId text errorMessage : Value) (context : list (string * Value))
| FormatVoiceflowResponse (reply : Value)
| ProcessError (error : Exn) (context : list (string * Value)).

(** Newest effect first. *)
Definition History : Type := list Effect.

(** The deployment and the services around it.  An answer may depend on
    everything that happened before, so any run of the real services is the
    run against some [World]. *)
Record World : Type := {
  META_APP_SECRET : option string;
  VOICEFLOW_API_KEY : option string;
  supabase : bool;                                  (* the client is not [null] *)
  verification : option Verification.Database;      (* the client of the GET module *)
  respond : History → Effect → Result Value;
  respond_query : History → Query → Result QueryResult;
  isTransientError : Exn → bool;
  toISOString : Value → Result string;              (* [new Date(t).toISOString()] *)
  now : History → Z;                                (* [Date.now()] *)
  now_iso : History → string                        (* [new Date().toISOString()] *)
}.

(** *** Asynchronous code: history-passing with exceptions *)

Definition M (A : Type) : Type := World → History → Result A * History.

Definition ret {A} (a : A) : M A := λ _ h, (inr a, h).

Definition bind {A B} (m : M A) (k : A → M B) : M B :=
  λ w h, match m w h with
         | (inl e, h') => (inl e, h')
         | (inr a, h') => k a w h'
         end.

#[export] Instance M_ret : MRet M := @ret.
#[export] Instance M_bind : MBind M := λ A B k m, bind m k.

Definition throw {A} (e : Exn) : M A := λ _ h, (inl e, h).

Definition try_catch {A} (m : M A) (handler : Exn → M A) : M A :=
  λ w h, match m w h with
         | (inl e, h') => handler e w h'
         | (inr a, h') => (inr a, h')
         end.

(** A pure step that may throw. *)
Definition lift {A} (r : Result A) : M A := λ _ h, (r, h).

Definition ask {A} (f : World → History → A) : M A := λ w h, (inr (f w h), h).

Definition call (c : Effect) : M Value := λ w h, (respond w h c, c :: h).

Definition await (q : Query) : M QueryResult := λ w h, (respond_query w h q, Db q :: h).

Definition console (l : LogLevel) (t : string) (d : list Value) : M unit :=
  λ _ h, (inr (), Console {| level := l; text := t; detail := d |} :: h).

Definition sleep (ms : Z) : M unit := λ _ h, (inr (), Sleep ms :: h).

Definition message_of (e : Exn) : Value := default VUndefined (assoc "message" e).

(** *** [ToString] *)

(** [v] rounds to the double [x] (an integer, at least [2^53]): it lies
    within half a gap of [x], the ends counting when the significand of [x]
    is even.  The bounds are compared four-fold, to stay in the integers. *)
Definition rounds_to (x v : Z) : bool :=
  let ulp := (2 ^ (Z.log2 x - 52))%Z in
  let below := (if Z.eqb x (2 ^ Z.log2 x) then ulp else 2 * ulp)%Z in
  let lo := (4 * x - below)%Z in
  let hi := (4 * x + 2 * ulp)%Z in
  if Z.even (x / ulp) then Z.leb lo (4 * v) && Z.leb (4 * v) hi
  else Z.ltb lo (4 * v) && Z.ltb (4 * v) hi.

(** The decimal with the fewest significant digits that rounds to [x], the
    closest one when there are two; [p] is the weight of the last digit
    tried. *)
Fixpoint shortest (fuel : nat) (p x : Z) : Z :=
  match fuel with
  | O => x
  | S fuel' =>
      let v1 := (x / p * p)%Z in
      let v2 := (v1 + p)%Z in
      match rounds_to x v1, rounds_to x v2 with
      | true, true =>
          if Z.ltb (x - v1) (v2 - x) then v1
          else if Z.ltb (v2 - x) (x - v1) then v2
          else if Z.even (x / p) then v1 else v2
      | true, false => v1
      | false, true => v2
      | false, false => shortest fuel' (p / 10)%Z x
      end
  end.

Fixpoint strip_zeros (fuel : nat) (v : Z) : Z :=
  match fuel with
  | O => v
  | S fuel' => if Z.eqb (v mod 10) 0 then strip_zeros fuel' (v / 10)%Z else v
  end.

(** [Number::toString] on a positive integer: all its digits below [2^53];
    from there on the shortest digits that identify the double, followed by
    zeros up to 21 digits and in exponent form beyond. *)
Definition positive_to_string (x : Z) : string :=
  if Z.ltb x (2 ^ 53) then pretty x else
  let digits := String.length (pretty x) in
  let v := shortest digits (10 ^ (Z.of_nat digits - 1)) x in
  let n := String.length (pretty v) in
  if Nat.leb n 21 then pretty v else
  match pretty (strip_zeros n v) with
  | String d EmptyString => String d EmptyString +:+ "e+" +:+ pretty (n - 1)%nat
  | String d more => String d EmptyString +:+ "." +:+ more +:+ "e+" +:+ pretty (n - 1)%nat
  | EmptyString => EmptyString
  end.

Definition number_to_string (n : Z) : string :=
  if Z.ltb n 0 then "-" +:+ positive_to_string (- n) else positive_to_string n.

(** [ToString(v)], as template literals and [RegExp.prototype.exec] apply
    it.  An object is converted by its [toString] method: the inherited one
    answers [[object Object]]; an own property [toString] hides it, and as
    no value of a reply or of a stored row is callable (and [valueOf]
    returns the object), the conversion then throws.  An array joins the
    conversions of its elements. *)
Fixpoint to_js_string (v : Value) : Result string :=
  match v with
  | VUndefined => inr "undefined"
  | VNull => inr "null"
  | VBool b => inr (if b then "true" else "false")
  | VNum n => inr (number_to_string n)
  | VStr s => inr s
  | VObj props =>
      match assoc "toString" props with
      | Some _ => inl (TypeError "Cannot convert object to primitive value")
      | None => inr "[object Object]"
      end
  | VArr xs =>
      (fix join (l : list Value) : Result string :=
         match l with
         | [] => inr EmptyString
         | x :: rest =>
             match (if nullish x then inr EmptyString else to_js_string x) with
             | inl e => inl e
             | inr first =>
                 match rest with
                 | [] => inr first
                 | _ =>
                     match join rest with
                     | inl e => inl e
                     | inr others => inr (first +:+ "," +:+ others)
                     end
                 end
             end
         end) xs
  end.

(** *** [retryWithBackoff] *)

Record RetryOptions : Type := {
  maxRetries : nat;
  initialDelay : Z;
  maxDelay : option Z;
  shouldRetry : option (Exn → M bool)
}.

Definition transient (e : Exn) : M bool := ask (λ w _, isTransientError w e).

(** Modelled from the spec: [./error-recovery] is not among the sources.
    Section 4.6: the executor invokes the operation; on failure it consults
    [shouldRetry] (by default the transient/permanent classification); if
    the error is retryable and attempts remain it sleeps
    [min (initialDelay * attempt) maxDelay] and tries again, otherwise it
    re-raises the error.  [maxRetries] bounds the number of invocations. *)
Fixpoint retry_from {A} (remaining : nat) (attempt : Z) (operation : M A)
    (o : RetryOptions) : M A :=
  try_catch operation (λ err,
    again ← default transient (shouldRetry o) err;
    match remaining with
    | S n =>
        if again : bool then
          let delay := initialDelay o * attempt in
          sleep (match maxDelay o with Some cap => Z.min delay cap | None => delay end);;
          retry_from n (attempt + 1) operation o
        else throw err
    | O => throw err
    end)%Z.

Definition retryWithBackoff {A} (operation : M A) (o : RetryOptions) : M A :=
  retry_from (maxRetries o - 1) 1 operation o.

(** *** [extractContextFromVoiceflowResponse] *)

(** The class [[a-zA-Z0-9_]]. *)
Definition is_key_char (c : ascii) : bool :=
  let n := nat_of_ascii c in
  Nat.leb 48 n && Nat.leb n 57
  || Nat.leb 65 n && Nat.leb n 90
  || Nat.leb 97 n && Nat.leb n 122
  || Nat.eqb n 95.

(** The class [[^\]]]. *)
Definition is_value_char (c : ascii) : bool := negb (Ascii.eqb c "]"%char).

(** The longest prefix in a class, and what follows it: a greedy [+] whose
    continuation starts with a character outside the class has nothing to
    backtrack to. *)
Fixpoint span (p : ascii → bool) (s : string) : string * string :=
  match s with
  | EmptyString => (EmptyString, EmptyString)
  | String c rest =>
      if p c then let '(run, after) := span p rest in (String c run, after)
      else (EmptyString, s)
  end.

Fixpoint strip_prefix (lit s : string) : option string :=
  match lit, s with
  | EmptyString, _ => Some s
  | String a lit', String b s' => if Ascii.eqb a b then strip_prefix lit' s' else None
  | String _ _, EmptyString => None
  end.

(** [/\[\[SET:([a-zA-Z0-9_]+)=([^\]]+)\]\]/] anchored at the start of [s]:
    the two groups and the length of the match. *)
Definition match_marker (s : string) : option (string * string * nat) :=
  s1 ← strip_prefix "[[SET:" s;
  let '(key, s2) := span is_key_char s1 in
  if String.eqb key EmptyString then None else
  s3 ← strip_prefix "=" s2;
  let '(value, s4) := span is_value_char s3 in
  if String.eqb value EmptyString then None else
  _ ← strip_prefix "]]" s4;
  Some (key, value, (6 + String.length key + 1 + String.length value + 2)%nat).

(** The [while ((match = regex.exec(text)) !== null)] loop of a global
    regular expression: leftmost matches that do not overlap.  [skip] counts
    the characters left before [lastIndex]. *)
Fixpoint exec_all (skip : nat) (s : string) : list (string * string) :=
  match s with
  | EmptyString => []
  | String _ rest =>
      match skip with
      | S n => exec_all n rest
      | O =>
          match match_marker s with
          | Some (key, value, len) => (key, value) :: exec_all (len - 1) rest
          | None => exec_all 0 rest
          end
      end
  end.

Fixpoint chars (s : string) : list Value :=
  match s with
  | EmptyString => []
  | String c rest => VStr (String c EmptyString) :: chars rest
  end.

(** [Object.entries] of a truthy value. *)
Definition entries (v : Value) : list (string * Value) :=
  match v with
  | VObj props => props
  | VArr xs => imap (λ i x, (pretty i, x)) xs
  | VStr s => imap (λ i x, (pretty i, x)) (chars s)
  | _ => []
  end.

(** The accessor [__proto__] of [Object.prototype] is found on the
    prototype chain: not without a prototype, and not behind an object of
    the reply that has an own property of that name. *)
Definition inherits_accessor (p : Prototype) : bool :=
  match p with
  | ObjectPrototype => true
  | NoPrototype => false
  | ReplyPrototype (VObj props) => negb (bool_decide (is_Some (assoc "__proto__" props)))
  | ReplyPrototype _ => true
  end.

(** What the setter of [__proto__] does with [value]: [null] and objects
    become the prototype, anything else is ignored. *)
Definition set_prototype (contextUpdates : ContextUpdates) (value : Value) : ContextUpdates :=
  match value with
  | VNull => {| own := own contextUpdates; prototype := NoPrototype |}
  | VObj _ | VArr _ => {| own := own contextUpdates; prototype := ReplyPrototype value |}
  | _ => contextUpdates
  end.

(** [contextUpdates[key] = value] (lines 308 and 316): an own property is
    written, created if need be; only the key [__proto__], while the object
    has no own property of that name and inherits the accessor, goes to the
    setter and leaves the own properties as they were. *)
Definition assign (contextUpdates : ContextUpdates) (kv : string * Value)
    : ContextUpdates :=
  if String.eqb kv.1 "__proto__"
     && negb (bool_decide (is_Some (own contextUpdates !! kv.1)))
     && inherits_accessor (prototype contextUpdates)
  then set_prototype contextUpdates kv.2
  else {| own := <[kv.1 := kv.2]> (own contextUpdates);
          prototype := prototype contextUpdates |}.

(** The assignments one item of the reply causes, in order (lines 306-318).
    Reading [item.type] throws on [null] and [undefined], and [exec] throws
    when the message cannot be converted to a string; an item is of one
    type, so nothing has been assigned for it by then. *)
Definition item_updates (item : Value) : Result (list (string * Value)) :=
  match get item "type" with
  | inl e => inl e
  | inr type =>
      let payload := match get item "payload" with inr p => p | inl _ => VUndefined end in
      let message := match get payload "message" with inr m => m | inl _ => VUndefined end in
      let variables := if is_str type "set-variables" && truthy payload
                       then entries payload else [] in
      if is_str type "text" && truthy payload && truthy message then
        match to_js_string message with
        | inl e => inl e
        | inr text =>
            inr (variables
                 ++ ((λ kv : string * string, (kv.1, VStr kv.2)) <$> exec_all 0 text))
        end
      else inr variables
  end.

Fixpoint forEach_item (items : list Value) (contextUpdates : ContextUpdates)
    : Result ContextUpdates :=
  match items with
  | [] => inr contextUpdates
  | item :: rest =>
      match item_updates item with
      | inl e => inl e
      | inr updates => forEach_item rest (foldl assign contextUpdates updates)
      end
  end.

Definition extractContextFromVoiceflowResponse (voiceflowResponse : Value)
    : Result ContextUpdates :=
  match voiceflowResponse with
  | VArr items => forEach_item items (literal ∅)
  | _ => inr (literal ∅)
  end.

(** *** [processMessage] *)

Definition retry_transient (n : nat) (delay : Z) : RetryOptions :=
  {| maxRetries := n; initialDelay := delay; maxDelay := None;
     shouldRetry := Some transient |}.

Definition iso_of (timestamp : Value) : M string :=
  λ w h, (toISOString w timestamp, h).

(** Lines 46-57. *)
Definition getSocialConnection (userId platform recipientId : Value) : M Value :=
  r ← await (Select "social_connections" "*"
               [("user_id", userId);
                (if is_str platform "facebook" then "fb_page_id" else "ig_account_id",
                 recipientId)] None);
  match error r with
  | Some connectionError => throw connectionError
  | None =>
      match data r with
      | Some (c :: _) => ret c
      | _ =>
          channel ← lift (to_js_string platform);
          user ← lift (to_js_string userId);
          page ← lift (to_js_string recipientId);
          throw (mkError ("No " +:+ channel +:+ " connection found for user " +:+ user
                          +:+ ", page ID " +:+ page))
      end
  end.

(** Lines 69-105. *)
Definition getOrCreateConversation (userId platform senderId timestamp session : Value)
    : M Value :=
  r ← await (Select "conversations" "*"
               [("user_id", userId); ("platform", platform); ("external_id", senderId)] None);
  match error r with
  | Some conversationError => throw conversationError
  | None =>
      match data r with
      | Some (c :: _) =>
          last_message_at ← iso_of timestamp;
          session_id ← lift (get session "id");
          cid ← lift (get c "id");
          await (Update "conversations"
                   [("last_message_at", VStr last_message_at); ("session_id", session_id)]
                   [("id", cid)]);;
          ret c
      | _ =>
          last_message_at ← iso_of timestamp;
          session_id ← lift (get session "id");
          r' ← await (Insert "conversations"
                        [("user_id", userId); ("platform", platform);
                         ("external_id", senderId); ("participant_id", senderId);
                         ("participant_name", VNull);
                         ("last_message_at", VStr last_message_at);
                         ("session_id", session_id)]);
          match error r' with
          | Some createError => throw createError
          | None =>
              match data r' with
              | Some (c :: _) => ret c
              | _ => throw (mkError "Failed to create conversation")
              end
          end
      end
  end.

(** [data[0]] of a query result. *)
Definition first_row (d : option (list Value)) : Result Value :=
  match d with
  | Some rows => inr (default VUndefined (head rows))
  | None => inl (TypeError "Cannot read properties of null (reading '0')")
  end.

(** Lines 121-134. *)
Definition saveUserMessage (conversationId processedMessage message timestamp : Value)
    : M Value :=
  content ← lift (get processedMessage "text");
  mid ← lift (get message "mid");
  sent_at ← iso_of timestamp;
  r ← await (Insert "messages"
               [("conversation_id", conversationId); ("content", content);
                ("sender_type", VStr "user");
                ("external_id", if truthy mid then mid else VNull);
                ("sent_at", VStr sent_at)]);
  match error r with
  | Some e => throw e
  | None => lift (first_row (data r))
  end.

(** Lines 145-154. *)
Definition getVoiceflowMapping (userId : Value) : M Value :=
  r ← await (Select "voiceflow_mappings" "*" [("user_id", userId)] (Some 1%Z));
  match error r with
  | Some e => throw e
  | None =>
      match data r with
      | Some (m :: _) => ret m
      | _ => throw (mkError "No Voiceflow agent configured")
      end
  end.

(** Lines 162-169. *)
Definition getApiKey (userId : Value) : M Value :=
  r ← await (Select "voiceflow_api_keys" "api_key" [("user_id", userId)] (Some 1%Z));
  match data r with
  | Some (row :: _) => lift (get row "api_key")
  | _ => ask (λ w _, of_opt_str (VOICEFLOW_API_KEY w))
  end.

(** What the steps before the AI call leave for the rest of the function. *)
Record Prepared : Type := {
  connection : Value;
  session : Value;
  conversationId : Value;
  processedMessage : Value;
  savedMessage : Value;
  apiKey : Value;
  voiceflowRequest : Value
}.

(** Lines 43-186. *)
Definition prepare (userId platform senderId recipientId message timestamp : Value)
    : M Prepared :=
  ready ← ask (λ w _, supabase w);
  if negb ready then throw (mkError "Database connection is not available") else
  connection ← retryWithBackoff (getSocialConnection userId platform recipientId)
                  (retry_transient 3 300);
  session ← call (GetOrCreateSession userId senderId platform);
  conversation ← retryWithBackoff
                    (getOrCreateConversation userId platform senderId timestamp session)
                    (retry_transient 3 300);
  conversationId ← lift (get conversation "id");
  sid ← lift (get session "id");
  call (LinkSessionToConversation conversationId sid);;
  processedMessage ← call (ProcessMetaMessage message platform);
  savedMessage ← retryWithBackoff
                    (saveUserMessage conversationId processedMessage message timestamp)
                    (retry_transient 2 300);
  sid ← lift (get session "id");
  text ← lift (get processedMessage "text");
  call (UpdateSessionContext sid (literal {[ "lastUserMessage" := text ]}));;
  retryWithBackoff (getVoiceflowMapping userId) (retry_transient 2 300);;
  apiKey ← retryWithBackoff (getApiKey userId) (retry_transient 2 300);
  if negb (truthy apiKey) then throw (mkError "No Voiceflow API key found") else
  messageId ← lift (get savedMessage "id");
  iso ← iso_of timestamp;
  sid ← lift (get session "id");
  voiceflowContext ← call (PrepareVoiceflowContext sid
                             [("messageId", messageId); ("participantId", senderId);
                              ("platform", platform); ("conversationId", conversationId);
                              ("timestamp", VStr iso)]);
  voiceflowRequest ← call (PrepareVoiceflowRequest processedMessage voiceflowContext);
  ret {| connection := connection; session := session; conversationId := conversationId;
         processedMessage := processedMessage; savedMessage := savedMessage;
         apiKey := apiKey; voiceflowRequest := voiceflowRequest |}.

(** Lines 189-201: the arguments of [axios.post] are evaluated first, the
    URL before the headers. *)
Definition callVoiceflow (userId : Value) (p : Prepared) : M Value :=
  user ← lift (to_js_string userId);
  key ← lift (to_js_string (apiKey p));
  call (AxiosPost
          ("https://general-runtime.voiceflow.com/state/user/" +:+ user +:+ "/interact")
          (voiceflowRequest p)
          [("headers", VObj [("Authorization", VStr ("Bearer " +:+ key));
                             ("Content-Type", VStr "application/json")]);
           ("timeout", VNum 15000)]).

(** [error.response && error.response.status >= 500], for the numeric
    status an HTTP client reports. *)
Definition server_error (e : Exn) : bool :=
  let response := default VUndefined (assoc "response" e) in
  truthy response
  && match get response "status" with
     | inr (VNum status) => (500 <=? status)%Z
     | _ => false
     end.

Definition retry_voiceflow : RetryOptions :=
  {| maxRetries := 3; initialDelay := 1000; maxDelay := Some 5000%Z;
     shouldRetry := Some (λ e, t ← transient e; ret (t || server_error e)) |}.

(** The context snapshot of the dead-letter record (line 222). *)
Definition snapshot (platform timestamp : Value) (p : Prepared) : Result (list (string * Value)) :=
  match get (savedMessage p) "id", get (session p) "id" with
  | inr messageId, inr sessionId =>
      inr [("platform", platform); ("conversationId", conversationId p);
           ("messageId", messageId); ("timestamp", timestamp); ("sessionId", sessionId)]
  | inl e, _ => inl e
  | _, inl e => inl e
  end.

(** Lines 205-216: the body of the inner [try].  [Object.keys] counts the
    own properties. *)
Definition exchange (userId : Value) (p : Prepared) : M Value :=
  voiceflowResponse ← retryWithBackoff (callVoiceflow userId p) retry_voiceflow;
  reply ← lift (get voiceflowResponse "data");
  contextUpdates ← lift (extractContextFromVoiceflowResponse reply);
  (if bool_decide (0 < size (own contextUpdates))%nat then
     sid ← lift (get (session p) "id");
     call (UpdateSessionContext sid contextUpdates);; ret ()
   else ret ());;
  sid ← lift (get (session p) "id");
  call (ExtendSession sid);;
  ret voiceflowResponse.

(** Lines 203-225: the AI exchange and its [catch]. *)
Definition askVoiceflow (userId platform timestamp : Value) (p : Prepared) : M Value :=
  try_catch
    (exchange userId p)
    (λ voiceflowError,
       text ← lift (get (processedMessage p) "text");
       context ← lift (snapshot platform timestamp p);
       call (SaveToDeadLetterQueue userId text (message_of voiceflowError) context);;
       throw (mkError "Failed to process message with AI assistant after multiple attempts")).

(** Lines 229-241. *)
Definition saveAssistantMessage (p : Prepared) (formattedResponse : Value) : M Value :=
  content ← lift (get formattedResponse "text");
  sent_at ← ask (λ w h, now_iso w h);
  r ← await (Insert "messages"
               [("conversation_id", conversationId p); ("content", content);
                ("sender_type", VStr "assistant"); ("sent_at", VStr sent_at)]);
  match error r with
  | Some e => throw e
  | None => lift (first_row (data r))
  end.

Definition outbound (senderId formattedResponse : Value) : Value :=
  VObj [("recipient", VObj [("id", senderId)]); ("message", formattedResponse);
        ("messaging_type", VStr "RESPONSE")].

(** Lines 247-271. *)
Definition sendResponse (platform senderId : Value) (p : Prepared)
    (formattedResponse accessToken : Value) : M Value :=
  let config := [("params", VObj [("access_token", accessToken)]); ("timeout", VNum 10000)] in
  if is_str platform "facebook" then
    call (AxiosPost "https://graph.facebook.com/v18.0/me/messages"
            (outbound senderId formattedResponse) config)
  else if is_str platform "instagram" then
    ig ← lift (get (connection p) "ig_account_id");
    account ← lift (to_js_string ig);
    call (AxiosPost ("https://graph.facebook.com/v18.0/" +:+ account +:+ "/messages")
            (outbound senderId formattedResponse) config)
  else ret VUndefined.

(** What recording the reply leaves for the send. *)
Record Recorded : Type := {
  formattedResponse : Value;
  assistantMessage : Value;
  accessToken : Value
}.

(** Lines 227-246: format the reply and record it as the assistant's
    message. *)
Definition recordReply (p : Prepared) (voiceflowResponse : Value) : M Recorded :=
  reply ← lift (get voiceflowResponse "data");
  formattedResponse ← call (FormatVoiceflowResponse reply);
  assistantMessage ← retryWithBackoff (saveAssistantMessage p formattedResponse)
                        {| maxRetries := 2; initialDelay := 300; maxDelay := None;
                           shouldRetry := None |};
  sid ← lift (get (session p) "id");
  text ← lift (get formattedResponse "text");
  call (UpdateSessionContext sid (literal {[ "lastAssistantMessage" := text ]}));;
  accessToken ← lift (get (connection p) "access_token");
  ret {| formattedResponse := formattedResponse; assistantMessage := assistantMessage;
         accessToken := accessToken |}.

Definition delivered (messageId sessionId : Value) : Value :=
  VObj [("success", VBool true); ("messageId", messageId); ("sessionId", sessionId)].

Definition undelivered (messageId sessionId : Value) : Value :=
  VObj [("success", VBool true);
        ("warning", VStr "Message processed but failed to deliver to user");
        ("messageId", messageId); ("sessionId", sessionId)].

(** Lines 273-285: send the reply; a failed send is only a warning. *)
Definition send (platform senderId : Value) (p : Prepared) (r : Recorded) : M Value :=
  returned ← try_catch
    (retryWithBackoff
       (sendResponse platform senderId p (formattedResponse r) (accessToken r))
       (retry_transient 3 1000);;
     ret None)
    (λ sendError,
       console Error "Failed to send response after retries:" [VObj sendError];;
       messageId ← lift (get (assistantMessage r) "id");
       sessionId ← lift (get (session p) "id");
       ret (Some (undelivered messageId sessionId)));
  match returned with
  | Some result => ret result
  | None =>
      messageId ← lift (get (assistantMessage r) "id");
      sessionId ← lift (get (session p) "id");
      ret (delivered messageId sessionId)
  end.

(** Lines 227-285. *)
Definition deliver (platform senderId : Value) (p : Prepared) (voiceflowResponse : Value)
    : M Value :=
  r ← recordReply p voiceflowResponse;
  send platform senderId p r.

(** Lines 287-294: the outer [catch]. *)
Definition failed (userId platform : Value) (err : Exn) : M Value :=
  errorDetails ← call (ProcessError err [("userId", userId); ("platform", platform);
                                         ("senderId", VNull); ("recipientId", VNull)]);
  console Error "Failed to process message:" [errorDetails];;
  isTransient ← lift (get errorDetails "isTransient");
  if truthy isTransient then
    ret (VObj [("success", VBool false); ("error", message_of err);
               ("transient", VBool true); ("shouldRetry", VBool true)])
  else ret (VObj [("success", VBool false); ("error", message_of err)]).

(** Lines 41-295. *)
Definition processMessage (userId platform senderId recipientId message timestamp : Value)
    : M Value :=
  try_catch
    (p ← prepare userId platform senderId recipientId message timestamp;
     voiceflowResponse ← askVoiceflow userId platform timestamp p;
     deliver platform senderId p voiceflowResponse)
    (failed userId platform).

(** *** [exports.handler] *)

Definition cors : list (string * string) :=
  [("Access-Control-Allow-Origin", "*");
   ("Access-Control-Allow-Headers", "Content-Type, X-Hub-Signature, X-Hub-Signature-256");
   ("Access-Control-Allow-Methods", "GET, POST, OPTIONS")].

Definition json (status : Z) (v : list (string * Value)) : Response :=
  {| statusCode := status; resp_headers := cors; resp_body := Some (BodyJson (VObj v)) |}.

(** What [for (const x of source)] runs over, [v] being the value of the
    expression [source]; the message of the error names the expression. *)
Definition iterate (source : string) (v : Value) : Result (list Value) :=
  match v with
  | VArr xs => inr xs
  | VStr s => inr (chars s)
  | _ => inl (TypeError (source +:+ " is not iterable"))
  end.

(** The property [k] of the pattern [const { k, ... } = source]; the
    pattern as a whole throws on [null] and [undefined], naming its first
    property. *)
Definition destructure (source first : string) (v : Value) (k : string) : Result Value :=
  match v with
  | VUndefined =>
      inl (TypeError ("Cannot destructure property '" +:+ first +:+ "' of '" +:+ source
                      +:+ "' as it is undefined."))
  | VNull =>
      inl (TypeError ("Cannot destructure property '" +:+ first +:+ "' of '" +:+ source
                      +:+ "' as it is null."))
  | _ => get v k
  end.

Definition queued (queueResult : Value) (tags : list (string * Value)) : Result Value :=
  match get queueResult "id" with
  | inr queueId => inr (VObj ([("success", VBool true); ("queueId", queueId)] ++ tags))
  | inl e => inl e
  end.

(** Lines 420-438: the body of the loop over the events of one entry; it
    returns [queueResults] as the event leaves it. *)
Definition handleEvent (userId platform : string) (evt : Value) (queueResults : list Value)
    : M (list Value) :=
  if String.eqb platform "instagram" then
    field ← lift (get evt "field");
    if is_str field "messages" then
      value ← lift (get evt "value");
      m ← call (ProcessInstagramMessage value);
      let part := destructure "processInstagramMessage(...)" "senderId" m in
      senderId ← lift (part "senderId");
      recipientId ← lift (part "recipientId");
      message ← lift (part "message");
      timestamp ← lift (part "timestamp");
      queueResult ← call (QueueMessage (VStr userId) (VStr platform)
                            senderId recipientId message timestamp);
      result ← lift (queued queueResult [("platform", VStr "instagram")]);
      ret (queueResults ++ [result])
    else ret queueResults
  else if String.eqb platform "facebook" then
    message ← lift (get evt "message");
    is_echo ← (if truthy message then lift (get message "is_echo") else ret VUndefined);
    if truthy message && negb (truthy is_echo) then
      sender ← lift (get evt "sender");
      senderId ← lift (get sender "id");
      recipient ← lift (get evt "recipient");
      recipientId ← lift (get recipient "id");
      timestamp ← lift (get evt "timestamp");
      queueResult ← call (QueueMessage (VStr userId) (VStr platform)
                            senderId recipientId message timestamp);
      result ← lift (queued queueResult [("platform", VStr "facebook"); ("type", VStr "message")]);
      ret (queueResults ++ [result])
    else
      postback ← lift (get evt "postback");
      if truthy postback then
        sender ← lift (get evt "sender");
        senderId ← lift (get sender "id");
        recipient ← lift (get evt "recipient");
        recipientId ← lift (get recipient "id");
        timestamp ← lift (get evt "timestamp");
        stamp ← ask (λ w h, now w h);
        let postbackMessage :=
          VObj [("mid", VStr ("postback-" +:+ number_to_string stamp)); ("postback", postback)] in
        queueResult ← call (QueueMessage (VStr userId) (VStr platform)
                              senderId recipientId postbackMessage timestamp);
        result ← lift (queued queueResult [("platform", VStr "facebook"); ("type", VStr "postback")]);
        ret (queueResults ++ [result])
      else ret queueResults
  else ret queueResults.

Fixpoint forEvents (userId platform : string) (events : list Value) (queueResults : list Value)
    : M (list Value) :=
  match events with
  | [] => ret queueResults
  | evt :: rest =>
      queueResults' ← handleEvent userId platform evt queueResults;
      forEvents userId platform rest queueResults'
  end.

(** Lines 417-439: one entry of the payload. *)
Definition handleEntry (userId platform : string) (entry : Value) (queueResults : list Value)
    : M (list Value) :=
  messaging ← lift (get entry "messaging");
  messagingEvents ← (if truthy messaging then ret messaging else lift (get entry "changes"));
  if negb (truthy messagingEvents) then ret queueResults else
  events ← lift (iterate "messagingEvents" messagingEvents);
  forEvents userId platform events queueResults.

Fixpoint forEntries (userId platform : string) (entries : list Value) (queueResults : list Value)
    : M (list Value) :=
  match entries with
  | [] => ret queueResults
  | entry :: rest =>
      queueResults' ← handleEntry userId platform entry queueResults;
      forEntries userId platform rest queueResults'
  end.

(** Lines 395-453: the body of the outer [try]. *)
Definition processPayload (userId platform : string) (event : Event) : M Response :=
  parsed ← try_catch (payload ← call (JsonParse (body event)); ret (inr payload))
             (λ _, ret (inl (json 400 [("error", VStr "Invalid request body. JSON parsing failed.")])));
  match parsed with
  | inl bad_request => ret bad_request
  | inr payload =>
      object ← lift (get payload "object");
      if negb (truthy object) || (negb (is_str object "page") && negb (is_str object "instagram"))
      then ret (json 200 [("status", VStr "ignored");
                          ("message", VStr "Not a messaging webhook event")])
      else
        console Log "Received webhook event:" [payload];;
        entry ← lift (get payload "entry");
        entries ← lift (iterate "data.entry" entry);
        queueResults ← forEntries userId platform entries [];
        processingResults ← call (ProcessPendingMessages 2);
        processed ← lift (get processingResults "processed");
        ret (json 200 [("status", VStr "success");
                       ("message", VStr "Webhook events received and queued for processing");
                       ("queued", VNum (Z.of_nat (length queueResults)));
                       ("processed", processed)])
  end.

(** Lines 394-462: the outer [try] and its [catch]. *)
Definition ingest (userId platform : string) (event : Event) : M Response :=
  try_catch (processPayload userId platform event)
    (λ err,
       console Error "Error handling webhook event:" [VObj err];;
       ret (json 200 [("status", VStr "error"); ("message", VStr "Error processing webhook");
                      ("error", message_of err)])).

(** Lines 369-463: path parameters, then the payload. *)
Definition accept (event : Event) : M Response :=
  let '(userId, platform) :=
    match path_params (path event) with
    | Some (u, pl) => (Some u, Some pl)
    | None => (None, None)
    end in
  if negb (truthy_str userId) || negb (truthy_str platform) then
    console Error "Missing userId or platform in webhook URL:" [VStr (path event)];;
    ret (json 400 [("error", VStr "Invalid webhook URL format. Expected /api/webhooks/{userId}/{platform}/{timestamp}")])
  else
    let userId := default EmptyString userId in
    let platform := default EmptyString platform in
    if negb (String.eqb platform "facebook") && negb (String.eqb platform "instagram") then
      ret (json 400 [("error", VStr ("Invalid platform. Expected " +:+ dquote +:+ "facebook"
                                     +:+ dquote +:+ " or " +:+ dquote +:+ "instagram"
                                     +:+ dquote +:+ "."))])
    else ingest userId platform event.

(** Lines 351-367: the signature check; [Some] is the response that ends
    the request. *)
Definition authenticate (event : Event) : M (option Response) :=
  appSecret ← ask (λ w _, META_APP_SECRET w);
  if truthy_str appSecret then
    validationResult ← call (ValidateWebhook (headers event) (body event)
                               (default EmptyString appSecret));
    valid ← lift (get validationResult "valid");
    if negb (truthy valid) then
      details ← lift (get validationResult "message");
      console Error "Invalid webhook signature:" [details];;
      ret (Some (json 401 [("error", VStr "Invalid webhook signature"); ("details", details)]))
    else
      method ← lift (get validationResult "method");
      console Log "Webhook signature verified using:" [method];;
      ret None
  else
    console Warn "No META_APP_SECRET environment variable set. Skipping signature validation!" [];;
    ret None.

(** Lines 324-463.  The callback [processMessage] handed to
    [processPendingMessages] runs inside that call. *)
Definition handler (event : Event) : M Response :=
  if String.eqb (httpMethod event) "OPTIONS" then
    ret {| statusCode := 204; resp_headers := cors; resp_body := None |}
  else if String.eqb (httpMethod event) "GET" then
    λ w h, let '(logs, r) := Verification.handler (verification w) event in
           (inr r, rev (Console <$> logs) ++ h)
  else if negb (String.eqb (httpMethod event) "POST") then
    ret (json 405 [("error", VStr "Method not allowed. Please use POST for webhook events.")])
  else
    rejected ← authenticate event;
    match rejected with
    | Some response => ret response
    | None => accept event
    end.

End WebhookHandler.

(** ** The admin screen: [AdminWebhookSetup.tsx] *)

Module AdminWebhookSetup.
Import Verification.

(** What [generateWebhookUrl] passes to [updateWebhookConfig]. *)
Record Patch : Type := {
  generated_url : string;
  new_verification_token : string
}.

(** Lines 106-129, up to the update: [origin] is [window.location.origin],
    [timestamp] is [Date.now()], [random] the random token, [channel_name]
    the column of that name (the verification endpoint never reads it, so it
    is not a field of the row above).  A thrown error is caught at line
    131. *)
Definition generateWebhookUrl (origin : string) (timestamp : Z) (random : string)
    (webhook : WebhookConfig) (channel_name : option string) : Result Patch :=
  if negb (truthy_str (user_id webhook))
  then inl (mkError "Webhook has no associated user ID") else
  let platform := if truthy_str (platform webhook)
                  then default EmptyString (platform webhook) else "all" in
  let channel := if truthy_str channel_name
                 then default EmptyString channel_name else "default" in
  let generatedUrl := origin +:+ "/api/webhooks/" +:+ default EmptyString (user_id webhook)
                      +:+ "/" +:+ platform +:+ "/" +:+ channel +:+ "/" +:+ WebhookHandler.number_to_string timestamp in
  let verificationToken := if truthy_str (verification_token webhook)
                           then default EmptyString (verification_token webhook)
                           else random in
  inr {| generated_url := generatedUrl; new_verification_token := verificationToken |}.

End AdminWebhookSetup.

(** ** Notions and sample inputs for the statements *)

Module VerificationCases.
Import Verification.

(** A configuration row answers a handshake on path [p] with [token]: the
    token is the row's; the tenant is the row's when the path names one; the
    channel is the row's when the path names one other than [all].  The
    activation flag plays no part. *)
Definition matches (p : string) (token : string) (c : WebhookConfig) : Prop :=
  verification_token c = Some token
  ∧ match path_params p with
    | Some (u, pl) =>
        (u ≠ EmptyString → user_id c = Some u)
        ∧ (pl ≠ EmptyString → pl ≠ "all" → platform c = Some pl)
    | None => True
    end.

Definition config (active : bool) : WebhookConfig :=
  {| id := "cfg-1"; user_id := Some "T1"; platform := Some "facebook";
     verification_token := Some "s3cret"; is_active := active |}.

Definition handshake (token : string) : Event :=
  {| httpMethod := "GET"; path := "/api/webhooks/T1/facebook/1700000000000";
     queryStringParameters :=
       Some (<["hub.mode" := "subscribe"]>
               (<["hub.verify_token" := token]> {["hub.challenge" := "1158201444"]}));
     headers := ∅; body := None |}.

(** Both credentials set, one configuration. *)
Definition live (active : bool) : Deployment :=
  {| VITE_SUPABASE_URL := Some "https://db.example"; SUPABASE_SERVICE_KEY := Some "service-key";
     createClient_throws := false;
     database := {| webhook_configs := [config active]; fault := None |} |}.

(** The same data store with an active configuration, deployed without the
    service key. *)
Definition keyless : Deployment :=
  {| VITE_SUPABASE_URL := Some "https://db.example"; SUPABASE_SERVICE_KEY := None;
     createClient_throws := false;
     database := {| webhook_configs := [config true]; fault := None |} |}.

End VerificationCases.

Module HandlerCases.
Import WebhookHandler.

(** *** The ingestion endpoint *)

(** The entry of [queueResults] for an event queued as a postback. *)
Definition postback_result (queueId : Value) : Value :=
  VObj [("success", VBool true); ("queueId", queueId);
        ("platform", VStr "facebook"); ("type", VStr "postback")].

(** The queue write of a postback event. *)
Definition postback_write (w : World) (h : History) (userId : string)
    (senderId recipientId postback timestamp : Value) : Effect :=
  QueueMessage (VStr userId) (VStr "facebook") senderId recipientId
    (VObj [("mid", VStr ("postback-" +:+ number_to_string (now w h))); ("postback", postback)])
    timestamp.

Definition rejection (details : Value) : Response :=
  json 401 [("error", VStr "Invalid webhook signature"); ("details", details)].

Definition is_validation (e : Effect) : bool :=
  match e with
  | ValidateWebhook _ _ _ => true
  | _ => false
  end.

Definition no_secret_warning : Effect :=
  Console {| level := Warn;
             text := "No META_APP_SECRET environment variable set. Skipping signature validation!";
             detail := [] |}.

Definition bad_request : Response :=
  json 400 [("error", VStr "Invalid request body. JSON parsing failed.")].

Definition error_response (err : Exn) : Response :=
  json 200 [("status", VStr "error"); ("message", VStr "Error processing webhook");
            ("error", message_of err)].

Definition postback : Value :=
  VObj [("title", VStr "Get started"); ("payload", VStr "GET_STARTED")].

Definition echo : Value :=
  VObj [("mid", VStr "m-1"); ("text", VStr "Hello"); ("is_echo", VBool true)].

Definition party (id : string) : Value := VObj [("id", VStr id)].

Definition postback_event : Value :=
  VObj [("sender", party "S1"); ("recipient", party "P1"); ("timestamp", VNum 1700000000000);
        ("postback", postback)].

Definition echo_event : Value :=
  VObj [("sender", party "P1"); ("recipient", party "S1"); ("timestamp", VNum 1700000000000);
        ("message", echo)].

Definition echo_postback_event : Value :=
  VObj [("sender", party "S1"); ("recipient", party "P1"); ("timestamp", VNum 1700000000000);
        ("message", echo); ("postback", postback)].

Definition page (events : list Value) : Value :=
  VObj [("object", VStr "page");
        ("entry", VArr [VObj [("id", VStr "P1"); ("messaging", VArr events)]])].

(** A deployment whose queue accepts every write and whose validator
    rejects every signature; [payload] is what the request body parses to
    ([None]: it does not parse). *)
Definition world (secret : option string) (payload : option Value) : World :=
  {| META_APP_SECRET := secret;
     VOICEFLOW_API_KEY := None;
     supabase := true;
     verification := None;
     respond := λ h c,
       match c with
       | ValidateWebhook _ _ _ =>
           inr (VObj [("valid", VBool false); ("message", VStr "Signature mismatch")])
       | JsonParse _ =>
           match payload with
           | Some v => inr v
           | None => inl [("name", VStr "SyntaxError"); ("message", VStr "Unexpected token")]
           end
       | QueueMessage _ _ _ _ _ _ => inr (VObj [("id", VStr "q-1")])
       | ProcessPendingMessages _ => inr (VObj [("processed", VNum 0)])
       | _ => inr VUndefined
       end;
     respond_query := λ _ _, inr {| data := Some []; error := None |};
     isTransientError := λ _, false;
     toISOString := λ _, inr "2023-11-14T22:13:20.000Z";
     now := λ _, 1700000000000%Z;
     now_iso := λ _, "2023-11-14T22:13:20.000Z" |}.

Definition delivery : Event :=
  {| httpMethod := "POST"; path := "/api/webhooks/T1/facebook/1700000000000";
     queryStringParameters := None; headers := ∅; body := Some "{...}" |}.

(** No signing secret, a body that is not JSON. *)
Definition unparsed : World := world None None.

(** No signing secret, a page payload without [entry]. *)
Definition entryless : World := world None (Some (VObj [("object", VStr "page")])).

(** *** Context updates *)

Fixpoint all_chars (p : ascii → bool) (s : string) : bool :=
  match s with
  | EmptyString => true
  | String c rest => p c && all_chars p rest
  end.

(** The text [[[SET:k=v]]]. *)
Definition marker (k v : string) : string := "[[SET:" +:+ k +:+ "=" +:+ v +:+ "]]".

(** Text without an opening bracket: no match can start in it. *)
Definition plain (s : string) : Prop :=
  all_chars (λ c, negb (Ascii.eqb c "["%char)) s = true.

(** A key and a value the pattern accepts. *)
Definition key (k : string) : Prop := all_chars is_key_char k = true ∧ k ≠ EmptyString.

Definition value (v : string) : Prop := all_chars is_value_char v = true ∧ v ≠ EmptyString.

Definition text_item (message : string) : Value :=
  VObj [("type", VStr "text"); ("payload", VObj [("message", VStr message)])].

Definition set_variables (pairs : list (string * Value)) : Value :=
  VObj [("type", VStr "set-variables"); ("payload", VObj pairs)].

(** *** Processing one message *)

Definition is_dead_letter (e : Effect) : bool :=
  match e with
  | SaveToDeadLetterQueue _ _ _ _ => true
  | _ => false
  end.

(** An insert of a [Message] row whose sender is the assistant. *)
Definition is_assistant_row (e : Effect) : bool :=
  match e with
  | Db (Insert table row) =>
      String.eqb table "messages"
      && is_str (default VUndefined (assoc "sender_type" row)) "assistant"
  | _ => false
  end.

(** A request to the channel's send API. *)
Definition is_outbound_send (e : Effect) : bool :=
  match e with
  | AxiosPost url _ _ => String.prefix "https://graph.facebook.com/" url
  | _ => false
  end.

(** Neither a dead letter, nor an assistant row, nor a send. *)
Definition quiet (e : Effect) : Prop :=
  is_dead_letter e = false ∧ is_assistant_row e = false ∧ is_outbound_send e = false.



(** The request [callVoiceflow] posts for the user and the key, as
    strings. *)
Definition interact (user key : string) (p : Prepared) : Effect :=
  AxiosPost
    ("https://general-runtime.voiceflow.com/state/user/" +:+ user +:+ "/interact")
    (voiceflowRequest p)
    [("headers", VObj [("Authorization", VStr ("Bearer " +:+ key));
                       ("Content-Type", VStr "application/json")]);
     ("timeout", VNum 15000)].

(** Every effect a computation adds to the history satisfies [P]. *)
Definition emits {A} (P : Effect → Prop) (m : M A) : Prop :=
  ∀ w h r h', m w h = (r, h') → ∃ new, h' = new ++ h ∧ Forall P new.

Definition row (fields : list (string * Value)) : Result QueryResult :=
  inr {| data := Some [VObj fields]; error := None |}.

Definition timed_out : Exn :=
  [("name", VStr "AxiosError"); ("code", VStr "ECONNABORTED");
   ("message", VStr "timeout of 15000ms exceeded")].

Definition unreachable : Exn :=
  [("name", VStr "AxiosError"); ("code", VStr "ECONNRESET");
   ("message", VStr "socket hang up")].

Definition greeting : Value := VObj [("mid", VStr "m.1"); ("text", VStr "Hello")].

Definition answer : Value :=
  VObj [("status", VNum 200);
        ("data", VArr [VObj [("type", VStr "text");
                             ("payload", VObj [("message", VStr "Hi there")])]])].

(** Tenant [T1] with a Facebook page [P1], a configured agent and a stored
    API key; [ai] is what every call of the AI backend does and [channel]
    what every call of the send API does. *)
Definition relay (ai channel : Result Value) : World :=
  {| META_APP_SECRET := None;
     VOICEFLOW_API_KEY := None;
     supabase := true;
     verification := None;
     respond := λ _ c,
       match c with
       | GetOrCreateSession _ _ _ => inr (VObj [("id", VStr "s-1")])
       | ProcessMetaMessage message _ =>
           inr (VObj [("text", match get message "text" with inr t => t | inl _ => VUndefined end)])
       | PrepareVoiceflowRequest processed context =>
           inr (VObj [("action", processed); ("state", context)])
       | PrepareVoiceflowContext _ base => inr (VObj base)
       | FormatVoiceflowResponse _ => inr (VObj [("text", VStr "Hi there")])
       | ProcessError _ _ => inr (VObj [("isTransient", VBool false)])
       | AxiosPost url _ _ =>
           if String.prefix "https://general-runtime.voiceflow.com/" url then ai else channel
       | _ => inr VUndefined
       end;
     respond_query := λ _ q,
       match q with
       | Select table _ _ _ =>
           if String.eqb table "social_connections"
           then row [("fb_page_id", VStr "P1"); ("access_token", VStr "EAAB")]
           else if String.eqb table "conversations" then row [("id", VStr "c-1")]
           else if String.eqb table "voiceflow_mappings" then row [("vf_project_id", VStr "vf-1")]
           else row [("api_key", VStr "VF.DM.key")]
       | Insert _ fields =>
           row (("id", VStr (if is_str (default VUndefined (assoc "sender_type" fields)) "user"
                             then "m-1" else "m-2")) :: fields)
       | Update _ _ _ => inr {| data := None; error := None |}
       end;
     isTransientError := λ e,
       is_str (default VUndefined (assoc "code" e)) "ECONNABORTED"
       || is_str (default VUndefined (assoc "code" e)) "ECONNRESET";
     toISOString := λ _, inr "2023-11-14T22:13:20.000Z";
     now := λ _, 1700000000000%Z;
     now_iso := λ _, "2023-11-14T22:13:21.000Z" |}.

End HandlerCases.

(** ** Further notions and sample inputs *)

Module FaultCases.
Import Verification VerificationCases.

(** A data store whose queries resolve with an error. *)
Definition broken : Database :=
  {| webhook_configs := [config true]; fault := Some (ErrorResult "connection refused") |}.

End FaultCases.

Module IngestionCases.
Import WebhookHandler HandlerCases.

Definition is_queue_write (e : Effect) : bool :=
  match e with
  | QueueMessage _ _ _ _ _ _ => true
  | _ => false
  end.

(** The number of queue writes among some effects. *)
Definition queue_writes (new : list Effect) : nat :=
  length (filter (λ e, is_queue_write e) new).

Definition is_console (e : Effect) : bool :=
  match e with
  | Console _ => true
  | _ => false
  end.

Definition ignored : Response :=
  json 200 [("status", VStr "ignored"); ("message", VStr "Not a messaging webhook event")].

Definition success (queued processed : Value) : Response :=
  json 200 [("status", VStr "success");
            ("message", VStr "Webhook events received and queued for processing");
            ("queued", queued); ("processed", processed)].

Definition received (payload : Value) : Effect :=
  Console {| level := Log; text := "Received webhook event:"; detail := [payload] |}.

(** The entries of [queueResults] for a message and for an Instagram
    change. *)
Definition message_result (queueId : Value) : Value :=
  VObj [("success", VBool true); ("queueId", queueId);
        ("platform", VStr "facebook"); ("type", VStr "message")].


(** A deployment that differs from [w] in the answers [f] gives. *)
Definition answering (w : World) (f : Effect → option (Result Value)) : World :=
  {| META_APP_SECRET := META_APP_SECRET w; VOICEFLOW_API_KEY := VOICEFLOW_API_KEY w;
     supabase := supabase w; verification := verification w;
     respond := λ h c, default (respond w h c) (f c);
     respond_query := respond_query w; isTransientError := isTransientError w;
     toISOString := toISOString w; now := now w; now_iso := now_iso w |}.

(** A POST whose path does not have the webhook shape. *)
Definition misrouted : Event :=
  {| httpMethod := "POST"; path := "/api/hooks/T1/facebook/1700000000000";
     queryStringParameters := None; headers := ∅; body := Some "{...}" |}.

(** No signing secret, a payload about a user profile. *)
Definition profile_update : World := world None (Some (VObj [("object", VStr "user")])).

Definition text_event : list (string * Value) :=
  [("sender", party "S1"); ("recipient", party "P1"); ("timestamp", VNum 1700000000000);
   ("message", VObj [("mid", VStr "m.1"); ("text", VStr "Hello")])].

(** A delivery receipt: neither a message nor a postback. *)
Definition receipt : list (string * Value) :=
  [("sender", party "S1"); ("recipient", party "P1"); ("timestamp", VNum 1700000000000);
   ("delivery", VObj [("watermark", VNum 1700000000000)])].




(** No signing secret; a page payload with a postback, an echo and a
    message. *)
Definition busy : World :=
  world None (Some (page [postback_event; echo_event; VObj text_event])).

(** The loop of the request [event] reaches the event [evt]: the request
    is a POST that has passed the signature check for the tenant [userId] on
    Facebook, its body parses to a payload of a messaging object, [evt]
    follows the events [before] in the [messaging] array of an entry, and
    the entries and events before it were handled without an exception,
    leaving the results [queueResults] and the history [h2]; [queueResults0]
    and [h1] are the results and the history when the entry of [evt] is
    entered. *)
Definition reaches (w : World) (event : Event) (h : History) (userId : string)
    (before : list Value) (evt : Value) (after : list Value)
    (queueResults0 : list Value) (h1 : History)
    (queueResults : list Value) (h2 : History) : Prop :=
  ∃ h0 payload object entries_before entry entries_after,
    httpMethod event = "POST"
    ∧ authenticate event w h = (inr None, h0)
    ∧ path_params (path event) = Some (userId, "facebook")
    ∧ userId ≠ EmptyString
    ∧ respond w h0 (JsonParse (body event)) = inr payload
    ∧ get payload "object" = inr object
    ∧ (object = VStr "page" ∨ object = VStr "instagram")
    ∧ get payload "entry" = inr (VArr (entries_before ++ entry :: entries_after))
    ∧ get entry "messaging" = inr (VArr (before ++ evt :: after))
    ∧ forEntries userId "facebook" entries_before [] w
        (received payload :: JsonParse (body event) :: h0) = (inr queueResults0, h1)
    ∧ forEvents userId "facebook" before queueResults0 w h1 = (inr queueResults, h2).

(** No signing secret; a page payload with a message and then a postback,
    or an echo with a postback. *)
Definition mixed (second : Value) : World :=
  world None (Some (page [VObj text_event; second])).

Definition refused : Exn := mkError "queue unavailable".

(** The same deployment with a queue that refuses text messages. *)
Definition refusing (second : Value) : World :=
  answering (mixed second)
    (λ c, match c with
          | QueueMessage _ _ _ _ message _ =>
              if truthy (default VUndefined
                           (match message with VObj fields => assoc "text" fields | _ => None end))
              then Some (inl refused) else None
          | _ => None
          end).

(** An echo with a postback that names no sender. *)
Definition unsigned : list (string * Value) :=
  [("recipient", party "P1"); ("timestamp", VNum 1700000000000);
   ("message", echo); ("postback", postback)].

End IngestionCases.

Module ProcessCases.
Import WebhookHandler HandlerCases IngestionCases.

Definition no_client : Exn := mkError "Database connection is not available".

(** The context [processError] is given (line 288). *)
Definition error_context (userId platform : Value) : list (string * Value) :=
  [("userId", userId); ("platform", platform); ("senderId", VNull); ("recipientId", VNull)].



(** The lookup of the conversation (lines 70-75) and the update of a found
    one (lines 96-102). *)
Definition find_conversation (userId platform senderId : Value) : Query :=
  Select "conversations" "*"
    [("user_id", userId); ("platform", platform); ("external_id", senderId)] None.

Definition touch_conversation (last_message_at : string) (sessionId cid : Value) : Query :=
  Update "conversations"
    [("last_message_at", VStr last_message_at); ("session_id", sessionId)] [("id", cid)].

(** The deployment [w] loaded without its data-store credentials. *)
Definition without_client (w : World) : World :=
  {| META_APP_SECRET := META_APP_SECRET w; VOICEFLOW_API_KEY := VOICEFLOW_API_KEY w;
     supabase := false; verification := verification w;
     respond := respond w; respond_query := respond_query w;
     isTransientError := isTransientError w;
     toISOString := toISOString w; now := now w; now_iso := now_iso w |}.

(** The deployment [w] with a data store that refuses updates. *)
Definition read_only (w : World) : World :=
  {| META_APP_SECRET := META_APP_SECRET w; VOICEFLOW_API_KEY := VOICEFLOW_API_KEY w;
     supabase := supabase w; verification := verification w;
     respond := respond w;
     respond_query := λ h q,
       match q with
       | Update _ _ _ =>
           inr {| data := None;
                  error := Some [("code", VStr "42501"); ("message", VStr "permission denied")] |}
       | _ => respond_query w h q
       end;
     isTransientError := isTransientError w;
     toISOString := toISOString w; now := now w; now_iso := now_iso w |}.

(** An AI reply whose trace holds [null]. *)
Definition malformed : Value := VObj [("status", VNum 200); ("data", VArr [VNull])].

(** The state of a run on a channel the send step does not know. *)
Definition ready : Prepared :=
  {| connection := VObj [("access_token", VStr "EAAB")];
     session := VObj [("id", VStr "s-1")];
     conversationId := VStr "c-1";
     processedMessage := VObj [("text", VStr "Hello")];
     savedMessage := VObj [("id", VStr "m-1")];
     apiKey := VStr "VF.DM.key";
     voiceflowRequest := VObj [] |}.

Definition reply : Recorded :=
  {| formattedResponse := VObj [("text", VStr "Hi there")];
     assistantMessage := VObj [("id", VStr "m-2")];
     accessToken := VStr "EAAB" |}.

End ProcessCases.

Module ExtractionCases.
Import WebhookHandler HandlerCases.

(** [item.payload] and [item.payload.message] as the conditions of lines
    306 and 311 read them. *)
Definition payload_of (item : Value) : Value :=
  match get item "payload" with inr p => p | inl _ => VUndefined end.

Definition message_text (item : Value) : Value :=
  match get (payload_of item) "message" with inr m => m | inl _ => VUndefined end.

(** The reply item signals [k = v]: as a pair of a [set-variables] payload,
    or as a marker [[[SET:k=v]]] in the message of a [text] item. *)
Definition signalled (item : Value) (k : string) (v : Value) : Prop :=
  (get item "type" = inr (VStr "set-variables") ∧ (k, v) ∈ entries (payload_of item))
  ∨ (get item "type" = inr (VStr "text")
     ∧ ∃ s pre post, v = VStr s ∧ key k ∧ value s
         ∧ to_js_string (message_text item) = inr (pre +:+ marker k s +:+ post)).

(** The conversion of [v] to a string throws: [v] is an object with an own
    property [toString], or an array that holds such a value. *)
Fixpoint unprintable (v : Value) : bool :=
  match v with
  | VObj props => bool_decide (is_Some (assoc "toString" props))
  | VArr xs =>
      (fix any (l : list Value) : bool :=
         match l with
         | [] => false
         | x :: rest => unprintable x || any rest
         end) xs
  | _ => false
  end.

(** An item the scan of line 314 cannot read: a [text] item with a truthy
    message that cannot be converted to a string. *)
Definition unreadable (item : Value) : Prop :=
  get item "type" = inr (VStr "text")
  ∧ truthy (payload_of item) = true
  ∧ truthy (message_text item) = true
  ∧ unprintable (message_text item) = true.

(** A value that takes the accessor [__proto__] away from an object whose
    prototype it becomes: [null], or an object with an own property of that
    name. *)
Definition detaches (x : Value) : Prop :=
  x = VNull ∨ ∃ props, x = VObj props ∧ is_Some (assoc "__proto__" props).

(** An item that is an object and whose message, if any, converts to a
    string. *)
Definition well_formed (item : Value) : Prop :=
  nullish item = false ∧ unprintable (message_text item) = false.

End ExtractionCases.

Module SetupCases.
Import Verification VerificationCases AdminWebhookSetup.

(** A path segment: no [/] in it. *)
Definition segment (s : string) : Prop :=
  HandlerCases.all_chars (λ c, negb (Ascii.eqb c "/"%char)) s = true.

(** The platform segment of the generated URL. *)
Definition url_platform (webhook : WebhookConfig) : string :=
  if truthy_str (platform webhook) then default EmptyString (platform webhook) else "all".

(** The handshake and a delivery on the URL generated for [config] at
    [1700000000000]. *)
Definition generated_handshake : Event :=
  {| httpMethod := "GET"; path := "/api/webhooks/T1/facebook/default/1700000000000";
     queryStringParameters :=
       Some (<["hub.mode" := "subscribe"]>
               (<["hub.verify_token" := "s3cret"]> {["hub.challenge" := "1158201444"]}));
     headers := ∅; body := None |}.

Definition generated_delivery : Event :=
  {| httpMethod := "POST"; path := "/api/webhooks/T1/facebook/default/1700000000000";
     queryStringParameters := None; headers := ∅; body := Some "{...}" |}.

End SetupCases.

(** ** Facts about values *)

Lemma get_not_nullish v k : nullish v = false → ∃ x, get v k = inr x.
Proof. destruct v; try discriminate; simpl; eauto. Qed.

(** Induction on values, through the elements of arrays. *)
Lemma Value_nested_ind (P : Value → Prop) :
  P VUndefined → P VNull → (∀ b, P (VBool b)) → (∀ n, P (VNum n)) → (∀ s, P (VStr s)) →
  (∀ xs, Forall P xs → P (VArr xs)) → (∀ props, P (VObj props)) →
  ∀ v, P v.
Proof.
  intros Hu Hn Hb Hz Hs Harr Hobj. fix IH 1.
  intros [| |b|n|s|xs|props];
    [exact Hu | exact Hn | apply Hb | apply Hz | apply Hs | | apply Hobj].
  apply Harr. induction xs as [|x xs IHxs]; constructor; [apply IH | exact IHxs].
Qed.


Lemma filter_nonempty {A} (P : A → bool) (l : list A) :
  (∃ x, x ∈ l ∧ P x = true) ↔ filter (λ x, P x) l ≠ [].
Proof.
  split.
  - intros (x & Hin & HP) Hnil.
    assert (x ∈ filter (λ x, P x) l) as Hx by (apply list_elem_of_filter; rewrite HP; done).
    rewrite Hnil in Hx. by apply not_elem_of_nil in Hx.
  - destruct (filter (λ x, P x) l) as [|x rest] eqn:E; [done|]. intros _.
    assert (x ∈ filter (λ x, P x) l) as Hx by (rewrite E; left).
    apply list_elem_of_filter in Hx as [HP Hin]. exists x. split; [done|].
    by destruct (P x).
Qed.

(** ** The verification endpoint *)

Module VerificationFacts.
Import Verification VerificationCases.

(** The filters of the query select the rows that match the request. *)
Lemma query_matches p token c :
  query token (match path_params p with Some (u, _) => Some u | None => None end)
        (match path_params p with Some (_, pl) => pl | None => "all" end) c = true
  ↔ matches p token c.
Proof.
  unfold query, matches, eq_col.
  destruct (path_params p) as [[u pl]|]; simpl;
    rewrite ?andb_true_iff, ?bool_decide_eq_true; [|tauto].
  destruct (String.eqb_spec u EmptyString) as [->|Hu]; simpl;
    destruct (String.eqb_spec pl EmptyString) as [->|Hpl]; simpl;
    try destruct (String.eqb_spec pl "all") as [->|Hall]; simpl;
    rewrite ?bool_decide_eq_true; intuition congruence.
Qed.

(** The shape of [handler] once the method, mode and token checks pass. *)
Lemma handler_lookup sb event token :
  httpMethod event = "GET" →
  default ∅ (queryStringParameters event) !! "hub.mode" = Some "subscribe" →
  default ∅ (queryStringParameters event) !! "hub.verify_token" = Some token →
  token ≠ EmptyString →
  (handler sb event).2
  = (lookup sb token
       (match path_params (path event) with Some (u, _) => Some u | None => None end)
       (match path_params (path event) with Some (_, pl) => pl | None => "all" end)
       (default ∅ (queryStringParameters event) !! "hub.challenge")).2.
Proof.
  intros Hget Hmode Htoken Hne. unfold handler.
  rewrite Hget, Hmode, Htoken. simpl.
  destruct (String.eqb_spec token EmptyString) as [?|_]; [done|]. simpl.
  destruct (path_params (path event)) as [[u pl]|]; simpl;
    match goal with |- context [lookup ?a ?b ?c ?d ?e] => destruct (lookup a b c d e) end;
    reflexivity.
Qed.

(** C1 (amended).  For every GET handshake request: when [hub.mode] is not
    [subscribe] or [hub.verify_token] is absent or empty the status is 400.
    Otherwise, with an initialised client and a query that succeeds, the
    response is 200 with the challenge echoed as it is in a [text/plain]
    body when some configuration row, active or not, matches the token, the
    tenant (when the path names one) and the channel (when the path names
    one other than [all]), and 401 when no row matches.  Without a client
    the status is 401; when the query reports an error or rejects it is
    500. *)
Theorem handshake_response (sb : option Database) (event : Event) :
  httpMethod event = "GET" →
  let params := default ∅ (queryStringParameters event) in
  let response := (handler sb event).2 in
  ((params !! "hub.mode" ≠ Some "subscribe" ∨ truthy_str (params !! "hub.verify_token") = false) →
   statusCode response = 400%Z)
  ∧ (∀ token, params !! "hub.mode" = Some "subscribe" →
       params !! "hub.verify_token" = Some token → token ≠ EmptyString →
       match sb with
       | None => statusCode response = 401%Z
       | Some db =>
           match fault db with
           | Some _ => statusCode response = 500%Z
           | None =>
               ((∃ c, c ∈ webhook_configs db ∧ matches (path event) token c) →
                response = {| statusCode := 200;
                              resp_headers := cors ++ [("Content-Type", "text/plain")];
                              resp_body := Some (BodyText (params !! "hub.challenge")) |})
               ∧ ((¬ ∃ c, c ∈ webhook_configs db ∧ matches (path event) token c) →
                  statusCode response = 401%Z)
           end
       end).
Proof.
  intros Hget params response. split.
  - intros Hbad. subst response. unfold handler. rewrite Hget. simpl. fold params.
    destruct (bool_decide_reflect (params !! "hub.mode" = Some "subscribe")) as [Hm|Hm]; simpl;
      [|reflexivity].
    destruct Hbad as [Hbad|Hbad]; [done|]. rewrite Hbad. reflexivity.
  - intros token Hmode Htoken Hne. subst response.
    rewrite (handler_lookup sb event token Hget Hmode Htoken Hne). fold params.
    unfold lookup. destruct sb as [db|]; [|reflexivity].
    destruct (fault db) as [[m|m]|] eqn:Hf; [reflexivity..|].
    set (uid := match path_params (path event) with Some (u, _) => Some u | None => None end).
    set (pf := match path_params (path event) with Some (_, pl) => pl | None => "all" end).
    assert ((∃ c, c ∈ webhook_configs db ∧ matches (path event) token c)
            ↔ filter (λ c, query token uid pf c) (webhook_configs db) ≠ []) as Hex.
    { rewrite <- filter_nonempty. apply exist_proper. intros c.
      subst uid pf. by rewrite query_matches. }
    destruct (filter (λ c, query token uid pf c) (webhook_configs db)) as [|c rest].
    + split; [|reflexivity]. intros H. by apply Hex in H.
    + split; [reflexivity|]. intros H. destruct H. by apply Hex.
Qed.

(** A handshake with the configured token is answered with the challenge. *)
Lemma handshake_response_witness :
  (handler (supabase (live true)) (handshake "s3cret")).2
  = {| statusCode := 200;
       resp_headers := cors ++ [("Content-Type", "text/plain")];
       resp_body := Some (BodyText (Some "1158201444")) |}.
Proof.
  destruct (handshake_response (supabase (live true)) (handshake "s3cret") eq_refl)
    as [_ Hlookup].
  specialize (Hlookup "s3cret" eq_refl eq_refl ltac:(discriminate)).
  simpl in Hlookup. destruct Hlookup as [Hmatch _]. apply Hmatch.
  exists (config true). split; [left|]. vm_compute. auto.
Defined.

(** C1 as stated fails twice.  Deployed without the service key, the
    handshake is refused with 401 although an active configuration matches
    tenant, channel and token; with the client initialised, a configuration
    that is not active is enough for 200. *)
Lemma handshake_counterexample :
  ((∃ c, c ∈ webhook_configs (database keyless) ∧ is_active c = true
         ∧ matches (path (handshake "s3cret")) "s3cret" c)
   ∧ statusCode (handler (supabase keyless) (handshake "s3cret")).2 = 401%Z)
  ∧ ((∀ c, c ∈ webhook_configs (database (live false)) → is_active c = false)
     ∧ statusCode (handler (supabase (live false)) (handshake "s3cret")).2 = 200%Z).
Proof.
  split; split.
  - exists (config true). split; [left|]. vm_compute. auto.
  - reflexivity.
  - intros c Hc. apply list_elem_of_singleton in Hc. by subst.
  - reflexivity.
Qed.

(** C9.  When the client failed to initialise (a credential is missing or
    [createClient] threw), every handshake with [hub.mode = subscribe] and a
    non-empty token is answered 401 "Invalid verification token", whatever
    the data store holds: the lookup is skipped, no server error is
    reported. *)
Theorem uninitialised_client_rejects (d : Deployment) (event : Event) (token : string) :
  (truthy_str (VITE_SUPABASE_URL d) = false ∨ truthy_str (SUPABASE_SERVICE_KEY d) = false
   ∨ createClient_throws d = true) →
  httpMethod event = "GET" →
  default ∅ (queryStringParameters event) !! "hub.mode" = Some "subscribe" →
  default ∅ (queryStringParameters event) !! "hub.verify_token" = Some token →
  token ≠ EmptyString →
  supabase d = None
  ∧ (handler (supabase d) event).2 = json_error 401 "Invalid verification token.".
Proof.
  intros Hinit Hget Hmode Htoken Hne.
  assert (supabase d = None) as ->.
  { unfold supabase. destruct Hinit as [-> | [-> | ->]]; simpl;
      rewrite ?andb_false_r; try reflexivity.
    by destruct (_ && _). }
  split; [reflexivity|].
  by rewrite (handler_lookup None event token Hget Hmode Htoken Hne).
Qed.

(** The token of the request is a configured one, and the answer is 401. *)
Lemma uninitialised_client_rejects_witness :
  (∃ c, c ∈ webhook_configs (database keyless) ∧ verification_token c = Some "s3cret")
  ∧ statusCode (handler (supabase keyless) (handshake "s3cret")).2 = 401%Z.
Proof.
  split.
  - exists (config true). split; [left | reflexivity].
  - destruct (uninitialised_client_rejects keyless (handshake "s3cret") "s3cret")
      as [_ ->]; [right; left; reflexivity | reflexivity.. | discriminate | reflexivity].
Defined.

End VerificationFacts.

(** ** Effects of a computation *)

Module EffectFacts.
Import WebhookHandler HandlerCases.

(** *** What a computation emits *)

Section Emits.
Context (P : Effect → Prop).

Lemma emits_pure {A} (f : World → History → Result A) : emits P (λ w h, (f w h, h)).
Proof. intros w h r h' [= <- <-]. by exists []. Qed.

Lemma emits_ret {A} (a : A) : emits P (ret a).
Proof. apply (emits_pure (λ _ _, inr a)). Qed.

Lemma emits_throw {A} (e : Exn) : emits P (@throw A e).
Proof. apply (emits_pure (λ _ _, inl e)). Qed.

Lemma emits_lift {A} (r : Result A) : emits P (lift r).
Proof. apply (emits_pure (λ _ _, r)). Qed.

Lemma emits_ask {A} (f : World → History → A) : emits P (ask f).
Proof. apply (emits_pure (λ w h, inr (f w h))). Qed.

Lemma emits_iso_of t : emits P (iso_of t).
Proof. apply (emits_pure (λ w _, toISOString w t)). Qed.

Lemma emits_transient e : emits P (transient e).
Proof. apply emits_ask. Qed.

Lemma emits_call c : P c → emits P (call c).
Proof. intros Hc w h r h' [= <- <-]. exists [c]. split; [done | by constructor]. Qed.

Lemma emits_await q : P (Db q) → emits P (await q).
Proof. intros Hc w h r h' [= <- <-]. exists [Db q]. split; [done | by constructor]. Qed.

Lemma emits_console l t d :
  P (Console {| level := l; text := t; detail := d |}) → emits P (console l t d).
Proof. intros Hc w h r h' [= <- <-]. eexists [_]. split; [done | by constructor]. Qed.

Lemma emits_sleep ms : P (Sleep ms) → emits P (sleep ms).
Proof. intros Hc w h r h' [= <- <-]. exists [Sleep ms]. split; [done | by constructor]. Qed.

Lemma emits_bind {A B} (m : M A) (k : A → M B) :
  emits P m → (∀ a, emits P (k a)) → emits P (m ≫= k).
Proof.
  intros Hm Hk w h r h'. unfold mbind, M_bind, bind.
  destruct (m w h) as [[e|a] h1] eqn:E; intros Hrun.
  - injection Hrun as <- <-. destruct (Hm _ _ _ _ E) as (new & -> & Hnew).
    by exists new.
  - destruct (Hm _ _ _ _ E) as (new1 & -> & Hnew1).
    destruct (Hk a _ _ _ _ Hrun) as (new2 & -> & Hnew2).
    exists (new2 ++ new1). split; [by rewrite app_assoc | by apply Forall_app].
Qed.

Lemma emits_try_catch {A} (m : M A) (handler : Exn → M A) :
  emits P m → (∀ e, emits P (handler e)) → emits P (try_catch m handler).
Proof.
  intros Hm Hk w h r h'. unfold try_catch.
  destruct (m w h) as [[e|a] h1] eqn:E; intros Hrun.
  - destruct (Hm _ _ _ _ E) as (new1 & -> & Hnew1).
    destruct (Hk e _ _ _ _ Hrun) as (new2 & -> & Hnew2).
    exists (new2 ++ new1). split; [by rewrite app_assoc | by apply Forall_app].
  - injection Hrun as <- <-. destruct (Hm _ _ _ _ E) as (new & -> & Hnew).
    by exists new.
Qed.

Lemma emits_retry {A} (operation : M A) (o : RetryOptions) :
  (∀ ms, P (Sleep ms)) → emits P operation →
  (∀ e, emits P (default transient (shouldRetry o) e)) →
  emits P (retryWithBackoff operation o).
Proof.
  intros Hsleep Hop Hshould. unfold retryWithBackoff.
  generalize 1%Z. induction (maxRetries o - 1)%nat as [|n IH]; intros attempt; simpl.
  - apply emits_try_catch; [done|]. intros e. apply emits_bind; [done|].
    intros again. apply emits_throw.
  - apply emits_try_catch; [done|]. intros e. apply emits_bind; [done|].
    intros [|]; [|apply emits_throw].
    apply emits_bind; [by apply emits_sleep | intros _; apply IH].
Qed.

End Emits.

Ltac quiet_effect := repeat split; reflexivity.

Ltac emits_step :=
  first
    [ apply emits_ret | apply emits_throw | apply emits_lift | apply emits_ask
    | apply emits_iso_of | apply emits_transient
    | apply emits_call; quiet_effect | apply emits_await; quiet_effect
    | apply emits_console; quiet_effect | apply emits_sleep; quiet_effect
    | apply emits_retry; [intros ?; quiet_effect | | intros ?]
    | apply emits_bind; [|intros ?]
    | apply emits_try_catch; [|intros ?]
    | match goal with |- emits _ (match ?x with _ => _ end) => destruct x end ].

Ltac emits_quiet := repeat emits_step.

(** *** Reading a run backwards *)

Lemma bind_inr {A B} (m : M A) (k : A → M B) w h b h' :
  (m ≫= k) w h = (inr b, h') →
  ∃ a h1, m w h = (inr a, h1) ∧ k a w h1 = (inr b, h').
Proof.
  unfold mbind, M_bind, bind. destruct (m w h) as [[e|a] h1]; [discriminate|]. eauto.
Qed.

Lemma lift_inr {A} (r : Result A) w h a h' : lift r w h = (inr a, h') → r = inr a ∧ h' = h.
Proof. by intros [= -> ->]. Qed.

Ltac step H :=
  apply bind_inr in H as (? & ? & ? & H);
  repeat match goal with
         | E : lift _ _ _ = (inr _, _) |- _ => apply lift_inr in E as [E ->]
         end.

Ltac branch H :=
  match type of H with
  | (if ?c then _ else _) _ _ = _ => destruct c
  end.

End EffectFacts.

(** ** The ingestion endpoint *)

Module HandlerFacts.
Import WebhookHandler HandlerCases IngestionCases EffectFacts.

Ltac unfold_m :=
  unfold mbind, M_bind, mret, M_ret, bind, ret, lift, call, await, ask, console, sleep,
    throw, try_catch in *.

Lemma queued_ok queueResult tags :
  nullish queueResult = false →
  ∃ queueId, get queueResult "id" = inr queueId
    ∧ queued queueResult tags = inr (VObj ([("success", VBool true); ("queueId", queueId)] ++ tags)).
Proof.
  intros Hq. unfold queued.
  destruct queueResult; try discriminate; simpl; eauto.
Qed.

(** The third branch of the loop body: a Facebook event whose message is
    absent or an echo, and whose postback is truthy. *)
Lemma handleEvent_postback w h userId props message is_echo postback sender recipient
    senderId recipientId queueResult queueResults :
  default VUndefined (assoc "message" props) = message →
  (truthy message = false ∨ (get message "is_echo" = inr is_echo ∧ truthy is_echo = true)) →
  assoc "postback" props = Some postback → truthy postback = true →
  assoc "sender" props = Some sender → get sender "id" = inr senderId →
  assoc "recipient" props = Some recipient → get recipient "id" = inr recipientId →
  let write := postback_write w h userId senderId recipientId postback
                 (default VUndefined (assoc "timestamp" props)) in
  respond w h write = inr queueResult → nullish queueResult = false →
  ∃ queueId,
    get queueResult "id" = inr queueId
    ∧ handleEvent userId "facebook" (VObj props) queueResults w h
      = (inr (queueResults ++ [postback_result queueId]), write :: h).
Proof.
  intros Hm Hecho Hpb Hpbt Hs Hsid Hr Hrid write Hresp Hq.
  destruct (queued_ok queueResult [("platform", VStr "facebook"); ("type", VStr "postback")] Hq)
    as (queueId & Hid & Hqueued).
  exists queueId. split; [done|].
  subst write. unfold postback_write in *.
  unfold handleEvent. simpl. unfold_m. rewrite Hm, Hpb, Hs, Hr.
  destruct Hecho as [Hf | [He Het]].
  - rewrite Hf. simpl. rewrite Hpbt, Hsid, Hrid.
    by rewrite Hresp, Hqueued.
  - destruct (truthy message); [rewrite He, Het|]; simpl;
      rewrite Hpbt, Hsid, Hrid;
      by rewrite Hresp, Hqueued.
Qed.

(** C6 (amended).  A Facebook event whose message has [is_echo = true] and
    which carries no postback payload yields nothing: no call is made and
    [queueResults] is returned as it was. *)
Theorem echo_event_skipped w h userId props message queueResults :
  assoc "message" props = Some message → get message "is_echo" = inr (VBool true) →
  truthy (default VUndefined (assoc "postback" props)) = false →
  handleEvent userId "facebook" (VObj props) queueResults w h = (inr queueResults, h).
Proof.
  intros Hm Hecho Hpb. unfold handleEvent. simpl. unfold_m. rewrite Hm. simpl.
  destruct (truthy message); [rewrite Hecho|]; simpl; by rewrite Hpb.
Qed.

Lemma echo_event_skipped_witness :
  handleEvent "T1" "facebook" echo_event [] (world None None) [] = (inr [], []).
Proof.
  apply (echo_event_skipped (world None None) [] "T1"
           [("sender", party "P1"); ("recipient", party "S1");
            ("timestamp", VNum 1700000000000); ("message", echo)] echo []);
    reflexivity.
Defined.

(** C6 as stated fails on an event whose message is an echo and which also
    carries a postback: one queue write is made and one entry is pushed. *)
Lemma echo_event_counterexample :
  (∃ message, get echo_postback_event "message" = inr message
              ∧ get message "is_echo" = inr (VBool true))
  ∧ handleEvent "T1" "facebook" echo_postback_event [] (world None None) []
    = (inr [VObj [("success", VBool true); ("queueId", VStr "q-1");
                  ("platform", VStr "facebook"); ("type", VStr "postback")]],
       [QueueMessage (VStr "T1") (VStr "facebook") (VStr "S1") (VStr "P1")
          (VObj [("mid", VStr "postback-1700000000000"); ("postback", postback)])
          (VNum 1700000000000)]).
Proof.
  split; [by exists echo|]. vm_compute. reflexivity.
Qed.

(** Past the signature check nothing is validated. *)
Lemma forEvents_skips_validation userId platform events queueResults :
  emits (λ e, is_validation e = false) (forEvents userId platform events queueResults).
Proof.
  revert queueResults. induction events as [|evt events IH]; intros queueResults; simpl.
  - apply emits_ret.
  - apply emits_bind; [|done]. unfold handleEvent. emits_quiet.
Qed.

Lemma forEntries_skips_validation userId platform entries queueResults :
  emits (λ e, is_validation e = false) (forEntries userId platform entries queueResults).
Proof.
  revert queueResults. induction entries as [|entry entries IH]; intros queueResults; simpl.
  - apply emits_ret.
  - apply emits_bind; [|done]. unfold handleEntry. emits_quiet.
    apply forEvents_skips_validation.
Qed.

Lemma accept_skips_validation event :
  emits (λ e, is_validation e = false) (accept event).
Proof.
  unfold accept, ingest, processPayload. emits_quiet.
  all: try apply forEntries_skips_validation.
  all: emits_quiet.
Qed.

(** C2.  For a POST request: with a signing secret configured and a
    validation result that is not valid, the handler answers 401 and the
    only effects are the validation itself and the logged error (no parsing,
    no queue write, no data-store access); without a secret the handler logs
    a warning and goes on with the request, and nothing it does from there
    is a validation. *)
Theorem signature_gate w event h :
  httpMethod event = "POST" →
  (∀ secret validationResult valid,
     META_APP_SECRET w = Some secret → secret ≠ EmptyString →
     respond w h (ValidateWebhook (headers event) (body event) secret) = inr validationResult →
     get validationResult "valid" = inr valid → truthy valid = false →
     ∃ details,
       get validationResult "message" = inr details
       ∧ handler event w h
         = (inr (rejection details),
            [Console {| level := Error; text := "Invalid webhook signature:";
                        detail := [details] |};
             ValidateWebhook (headers event) (body event) secret] ++ h))
  ∧ (truthy_str (META_APP_SECRET w) = false →
     handler event w h = accept event w (no_secret_warning :: h)
     ∧ ∃ result rest,
         handler event w h = (result, rest ++ no_secret_warning :: h)
         ∧ Forall (λ e, is_validation e = false) rest).
Proof.
  intros Hpost. split.
  - intros secret validationResult valid Hsecret Hne Hresp Hvalid Hfalse.
    destruct (get_not_nullish validationResult "message") as [details Hd].
    { destruct validationResult; try discriminate; done. }
    exists details. split; [done|].
    unfold handler, authenticate. rewrite Hpost. simpl. unfold_m.
    rewrite Hsecret. simpl.
    destruct (String.eqb_spec secret EmptyString) as [?|_]; [done|]. simpl.
    by rewrite Hresp, Hvalid, Hfalse, Hd.
  - intros Hnone.
    assert (handler event w h = accept event w (no_secret_warning :: h)) as Hskip.
    { unfold handler, authenticate. rewrite Hpost. simpl. unfold_m. by rewrite Hnone. }
    split; [done|]. rewrite Hskip.
    destruct (accept event w (no_secret_warning :: h)) as [result h'] eqn:Hrun.
    destruct (accept_skips_validation event _ _ _ _ Hrun) as (rest & -> & Hrest).
    by exists result, rest.
Qed.

Lemma signature_gate_witness :
  handler delivery (world (Some "app-secret") (Some (page [postback_event]))) []
  = (inr (rejection (VStr "Signature mismatch")),
     [Console {| level := Error; text := "Invalid webhook signature:";
                 detail := [VStr "Signature mismatch"] |};
      ValidateWebhook ∅ (Some "{...}") "app-secret"]).
Proof.
  destruct (signature_gate (world (Some "app-secret") (Some (page [postback_event])))
              delivery [] eq_refl) as [Hreject _].
  destruct (Hreject "app-secret"
              (VObj [("valid", VBool false); ("message", VStr "Signature mismatch")])
              (VBool false) eq_refl ltac:(discriminate) eq_refl eq_refl eq_refl)
    as (details & Hd & Hrun).
  injection Hd as <-. exact Hrun.
Defined.

(** What the body of the outer [try] returns when it returns. *)
Lemma processPayload_returns w userId platform event h response h' :
  processPayload userId platform event w h = (inr response, h') →
  match respond w h (JsonParse (body event)) with
  | inl _ => response = bad_request
  | inr _ => statusCode response = 200%Z
  end.
Proof.
  unfold processPayload. unfold_m. simpl.
  destruct (respond w h (JsonParse (body event))) as [e|payload]; simpl.
  { intros [= <- _]. reflexivity. }
  destruct (get payload "object") as [e|object]; simpl; [discriminate|].
  destruct (negb (truthy object) || _); simpl.
  { intros [= <- _]. reflexivity. }
  destruct (get payload "entry") as [e|entry]; simpl; [discriminate|].
  destruct (iterate _ entry) as [e|entries]; simpl; [discriminate|].
  destruct (forEntries userId platform entries [] w _) as [[e|queueResults] h1]; [discriminate|].
  destruct (respond w h1 _) as [e|processingResults]; [discriminate|].
  destruct (get processingResults "processed") as [e|processed]; simpl; [discriminate|].
  intros [= <- _]. reflexivity.
Qed.

(** C5 (amended).  A POST request that passes the signature, path-format
    and platform checks always gets a response, and never a 5xx: 400 with an
    error body when the body does not parse as JSON; 200 once it has parsed,
    and then any exception thrown while the payload is processed gives the
    body [{status: error, message, error}]. *)
Theorem accepted_post_never_5xx w event h h1 userId platform :
  httpMethod event = "POST" →
  authenticate event w h = (inr None, h1) →
  path_params (path event) = Some (userId, platform) →
  userId ≠ EmptyString →
  platform = "facebook" ∨ platform = "instagram" →
  ∃ response h',
    handler event w h = (inr response, h')
    ∧ match respond w h1 (JsonParse (body event)) with
      | inl _ => response = bad_request
      | inr _ => statusCode response = 200%Z
      end
    ∧ ∀ err h2, processPayload userId platform event w h1 = (inl err, h2) →
                response = error_response err.
Proof.
  intros Hpost Hauth Hpath Hu Hpl.
  assert (handler event w h = ingest userId platform event w h1) as ->.
  { unfold handler. rewrite Hpost. simpl. unfold_m. rewrite Hauth.
    unfold accept. rewrite Hpath. simpl.
    destruct (String.eqb_spec userId EmptyString) as [?|_]; [done|].
    destruct Hpl as [-> | ->]; reflexivity. }
  unfold ingest. unfold_m.
  destruct (processPayload userId platform event w h1) as [[err|response] h2] eqn:Hrun.
  - simpl. do 2 eexists. split; [reflexivity|]. split.
    + revert Hrun. unfold processPayload. unfold_m. simpl.
      destruct (respond w h1 (JsonParse (body event))); [discriminate | reflexivity].
    + by intros err' h2' [= <- _].
  - do 2 eexists. split; [reflexivity|]. split; [|discriminate].
    by eapply processPayload_returns.
Qed.

(** A page payload without [entry] throws in the loop; the answer is 200
    with the error. *)
Lemma accepted_post_never_5xx_witness :
  ∃ h', handler delivery entryless []
        = (inr (error_response (TypeError "data.entry is not iterable")), h').
Proof.
  destruct (accepted_post_never_5xx entryless delivery [] [no_secret_warning] "T1" "facebook"
              eq_refl eq_refl eq_refl ltac:(discriminate) (or_introl eq_refl))
    as (response & h' & Hrun & _ & Hcaught).
  exists h'. rewrite Hrun. f_equal. f_equal. eapply Hcaught. vm_compute. reflexivity.
Defined.

(** C5 as stated fails when the exception is thrown by [JSON.parse]: the
    request passes the three checks and is answered 400. *)
Lemma accepted_post_counterexample :
  authenticate delivery unparsed [] = (inr None, [no_secret_warning])
  ∧ path_params (path delivery) = Some ("T1", "facebook")
  ∧ (∃ err, respond unparsed [no_secret_warning] (JsonParse (body delivery)) = inl err)
  ∧ handler delivery unparsed []
    = (inr bad_request, [JsonParse (body delivery); no_secret_warning])
  ∧ statusCode bad_request = 400%Z.
Proof.
  split; [reflexivity|]. split; [reflexivity|]. split; [by eexists|]. split; reflexivity.
Qed.

(** Whole requests: a postback is counted, an echo is not, an echo with a
    postback is. *)
Example postback_delivery :
  (handler delivery (world None (Some (page [postback_event]))) []).1
  = inr (json 200 [("status", VStr "success");
                   ("message", VStr "Webhook events received and queued for processing");
                   ("queued", VNum 1); ("processed", VNum 0)]).
Proof. vm_compute. reflexivity. Qed.

Example echo_delivery :
  (handler delivery (world None (Some (page [echo_event]))) []).1
  = inr (json 200 [("status", VStr "success");
                   ("message", VStr "Webhook events received and queued for processing");
                   ("queued", VNum 0); ("processed", VNum 0)]).
Proof. vm_compute. reflexivity. Qed.

Example echo_postback_delivery :
  (handler delivery (world None (Some (page [echo_postback_event; echo_event]))) []).1
  = inr (json 200 [("status", VStr "success");
                   ("message", VStr "Webhook events received and queued for processing");
                   ("queued", VNum 1); ("processed", VNum 0)]).
Proof. vm_compute. reflexivity. Qed.

(** *** An event in its request *)

Lemma forEvents_app userId platform before rest queueResults w h :
  forEvents userId platform (before ++ rest) queueResults w h
  = match forEvents userId platform before queueResults w h with
    | (inl e, h') => (inl e, h')
    | (inr queueResults', h') => forEvents userId platform rest queueResults' w h'
    end.
Proof.
  revert queueResults h. induction before as [|evt before IH]; intros queueResults h; [done|].
  cbn [app forEvents]. unfold mbind, M_bind, bind.
  destruct (handleEvent userId platform evt queueResults w h) as [[e|queueResults'] h']; [done|].
  apply IH.
Qed.

Lemma forEntries_app userId platform before rest queueResults w h :
  forEntries userId platform (before ++ rest) queueResults w h
  = match forEntries userId platform before queueResults w h with
    | (inl e, h') => (inl e, h')
    | (inr queueResults', h') => forEntries userId platform rest queueResults' w h'
    end.
Proof.
  revert queueResults h. induction before as [|entry before IH]; intros queueResults h; [done|].
  cbn [app forEntries]. unfold mbind, M_bind, bind.
  destruct (handleEntry userId platform entry queueResults w h) as [[e|queueResults'] h']; [done|].
  apply IH.
Qed.

(** Whatever the handling of an event that the loop reaches does, the
    request is answered 200 and its history holds the effects of that
    event. *)
Lemma request_passes_event w event h userId before evt after qr0 h1 qr1 h2 r h3 :
  reaches w event h userId before evt after qr0 h1 qr1 h2 →
  handleEvent userId "facebook" evt qr1 w h2 = (r, h3) →
  ∃ response later,
    handler event w h = (inr response, later ++ h3) ∧ statusCode response = 200%Z.
Proof.
  intros (h0 & payload & object & entries_before & entry & entries_after
          & Hpost & Hauth & Hpath & Hu & Hparse & Hobject & Hkind & Hentry & Hmessaging
          & Hentries & Hevents) Hevt.
  assert (handler event w h = ingest userId "facebook" event w h0) as ->.
  { unfold handler. rewrite Hpost. simpl. unfold_m. rewrite Hauth.
    unfold accept. rewrite Hpath. simpl.
    by destruct (String.eqb_spec userId EmptyString) as [?|_]. }
  unfold ingest, processPayload, try_catch. unfold_m. rewrite Hparse, Hobject.
  assert (negb (truthy object) || negb (is_str object "page") && negb (is_str object "instagram")
          = false) as -> by (by destruct Hkind as [-> | ->]).
  rewrite Hentry. cbn [iterate]. unfold received in Hentries.
  rewrite forEntries_app, Hentries. cbn [forEntries]. unfold mbind at 1, M_bind at 1, bind at 1.
  unfold handleEntry at 1. unfold_m. rewrite Hmessaging. cbn [truthy negb iterate].
  rewrite forEvents_app, Hevents. cbn [forEvents]. unfold mbind at 1, M_bind at 1, bind at 1.
  rewrite Hevt.
  destruct r as [e|qr2].
  { eexists _, [_]. split; reflexivity. }
  destruct (forEvents userId "facebook" after qr2 w h3) as [[e|qr3] h4] eqn:Hafter;
    destruct (forEvents_skips_validation _ _ _ _ _ _ _ _ Hafter) as (new1 & -> & _).
  { eexists _, (_ :: new1). split; reflexivity. }
  destruct (forEntries userId "facebook" entries_after qr3 w _) as [[e|qr4] h5] eqn:Hrest;
    destruct (forEntries_skips_validation _ _ _ _ _ _ _ _ Hrest) as (new2 & -> & _).
  { eexists _, (_ :: new2 ++ new1). split; [by simplify_list_eq | reflexivity]. }
  destruct (respond w _ (ProcessPendingMessages 2)) as [e|processingResults].
  { eexists _, (_ :: _ :: new2 ++ new1). split; [by simplify_list_eq | reflexivity]. }
  destruct (get processingResults "processed") as [e|processed].
  { eexists _, (_ :: _ :: new2 ++ new1). split; [by simplify_list_eq | reflexivity]. }
  eexists _, (_ :: new2 ++ new1). split; [by simplify_list_eq | reflexivity].
Qed.

(** The postback branch makes its queue write whenever it is entered. *)
Lemma handleEvent_postback_write w h userId props message is_echo postback sender recipient
    senderId recipientId queueResults :
  default VUndefined (assoc "message" props) = message →
  (truthy message = false ∨ (get message "is_echo" = inr is_echo ∧ truthy is_echo = true)) →
  assoc "postback" props = Some postback → truthy postback = true →
  assoc "sender" props = Some sender → get sender "id" = inr senderId →
  assoc "recipient" props = Some recipient → get recipient "id" = inr recipientId →
  ∃ r, handleEvent userId "facebook" (VObj props) queueResults w h
       = (r, postback_write w h userId senderId recipientId postback
               (default VUndefined (assoc "timestamp" props)) :: h).
Proof.
  intros Hm Hecho Hpb Hpbt Hs Hsid Hr Hrid. unfold postback_write.
  unfold handleEvent. simpl. unfold_m. rewrite Hm, Hpb, Hs, Hr.
  assert (∀ timestamp,
            ∃ r, match respond w h
                         (QueueMessage (VStr userId) (VStr "facebook") senderId recipientId
                            (VObj [("mid", VStr ("postback-" +:+ number_to_string (now w h)));
                                   ("postback", postback)]) timestamp) with
                 | inl e => (inl e, QueueMessage (VStr userId) (VStr "facebook") senderId
                                      recipientId
                                      (VObj [("mid", VStr ("postback-" +:+ number_to_string (now w h)));
                                             ("postback", postback)]) timestamp :: h)
                 | inr a =>
                     match queued a [("platform", VStr "facebook");
                                     ("type", VStr "postback")] with
                     | inl e => (inl e, QueueMessage (VStr userId) (VStr "facebook") senderId
                                          recipientId
                                          (VObj [("mid", VStr ("postback-" +:+ number_to_string (now w h)));
                                                 ("postback", postback)]) timestamp :: h)
                     | inr a0 => (inr (queueResults ++ [a0]),
                                  QueueMessage (VStr userId) (VStr "facebook") senderId
                                    recipientId
                                    (VObj [("mid", VStr ("postback-" +:+ number_to_string (now w h)));
                                           ("postback", postback)]) timestamp :: h)
                     end
                 end
                 = (r, QueueMessage (VStr userId) (VStr "facebook") senderId recipientId
                         (VObj [("mid", VStr ("postback-" +:+ number_to_string (now w h)));
                                ("postback", postback)]) timestamp :: h)) as Hwrite.
  { intros timestamp. destruct (respond w h _); [by eexists|].
    destruct (queued _ _); by eexists. }
  destruct Hecho as [Hf | [He Het]].
  - rewrite Hf. simpl. rewrite Hpbt, Hsid, Hrid. apply Hwrite.
  - destruct (truthy message); [rewrite He, Het|]; simpl;
      rewrite Hpbt, Hsid, Hrid; apply Hwrite.
Qed.

(** A postback event that the loop reaches: the write is made and the
    request answered 200; when the write returns a result object, the loop
    goes on from one more effect and one more result. *)
Lemma reached_postback_queued w event h userId before props after qr0 h1 queueResults h2
    message is_echo postback sender recipient senderId recipientId :
  reaches w event h userId before (VObj props) after qr0 h1 queueResults h2 →
  default VUndefined (assoc "message" props) = message →
  (truthy message = false ∨ (get message "is_echo" = inr is_echo ∧ truthy is_echo = true)) →
  assoc "postback" props = Some postback → truthy postback = true →
  assoc "sender" props = Some sender → get sender "id" = inr senderId →
  assoc "recipient" props = Some recipient → get recipient "id" = inr recipientId →
  let write :=
    QueueMessage (VStr userId) (VStr "facebook") senderId recipientId
      (VObj [("mid", VStr ("postback-" +:+ number_to_string (now w h2))); ("postback", postback)])
      (default VUndefined (assoc "timestamp" props)) in
  (∃ response later,
     handler event w h = (inr response, later ++ write :: h2)
     ∧ statusCode response = 200%Z)
  ∧ ∀ queueResult,
      respond w h2 write = inr queueResult → nullish queueResult = false →
      ∃ queueId,
        get queueResult "id" = inr queueId
        ∧ forEvents userId "facebook" (before ++ VObj props :: after) qr0 w h1
          = forEvents userId "facebook" after
              (queueResults
               ++ [VObj [("success", VBool true); ("queueId", queueId);
                         ("platform", VStr "facebook"); ("type", VStr "postback")]])
              w (write :: h2).
Proof.
  intros Hreaches Hm Hecho Hpb Hpbt Hs Hsid Hr Hrid write. split.
  - destruct (handleEvent_postback_write w h2 userId props message is_echo postback sender
                recipient senderId recipientId queueResults Hm Hecho Hpb Hpbt Hs Hsid Hr Hrid)
      as [r Hevt].
    by apply (request_passes_event _ _ _ _ _ _ _ _ _ _ _ _ _ Hreaches Hevt).
  - intros queueResult Hresp Hq.
    destruct (handleEvent_postback w h2 userId props message is_echo postback sender recipient
                senderId recipientId queueResult queueResults Hm Hecho Hpb Hpbt Hs Hsid Hr Hrid
                Hresp Hq) as (queueId & Hid & Hevt).
    exists queueId. split; [done|].
    destruct Hreaches as (_ & _ & _ & _ & _ & _ & _ & _ & _ & _ & _ & _ & _ & _ & _ & _ & Hevents).
    rewrite forEvents_app, Hevents. cbn [forEvents]. unfold mbind, M_bind, bind.
    by rewrite Hevt.
Qed.

(** C7 (amended).  A Facebook event with a truthy postback payload and no
    message field, with a sender and a recipient, that the loop of an
    accepted request reaches: the handler makes the queue write for it, with
    the message [{mid: 'postback-<Date.now()>', postback}], as the next
    effect, and answers the request 200; when the write returns a result
    object, the loop goes on with the next event from exactly one more
    effect, that write, and one more result, of type [postback]. *)
Theorem postback_only_event_queued w event h userId before props after qr0 h1 queueResults h2
    postback sender recipient senderId recipientId :
  reaches w event h userId before (VObj props) after qr0 h1 queueResults h2 →
  assoc "message" props = None →
  assoc "postback" props = Some postback → truthy postback = true →
  assoc "sender" props = Some sender → get sender "id" = inr senderId →
  assoc "recipient" props = Some recipient → get recipient "id" = inr recipientId →
  let write :=
    QueueMessage (VStr userId) (VStr "facebook") senderId recipientId
      (VObj [("mid", VStr ("postback-" +:+ number_to_string (now w h2))); ("postback", postback)])
      (default VUndefined (assoc "timestamp" props)) in
  (∃ response later,
     handler event w h = (inr response, later ++ write :: h2)
     ∧ statusCode response = 200%Z)
  ∧ ∀ queueResult,
      respond w h2 write = inr queueResult → nullish queueResult = false →
      ∃ queueId,
        get queueResult "id" = inr queueId
        ∧ forEvents userId "facebook" (before ++ VObj props :: after) qr0 w h1
          = forEvents userId "facebook" after
              (queueResults
               ++ [VObj [("success", VBool true); ("queueId", queueId);
                         ("platform", VStr "facebook"); ("type", VStr "postback")]])
              w (write :: h2).
Proof.
  intros Hreaches Hm Hpb Hpbt Hs Hsid Hr Hrid.
  apply (reached_postback_queued w event h userId before props after qr0 h1 queueResults h2
           VUndefined VUndefined postback sender recipient senderId recipientId); auto.
  by rewrite Hm.
Qed.

(** C10 (amended).  The same for a Facebook event that carries an echo
    message ([is_echo = true]) and a truthy postback payload: the echo test
    only closes the message branch, and the event that the loop reaches is
    written to the queue as a postback. *)
Theorem echo_with_postback_queued w event h userId before props after qr0 h1 queueResults h2
    message postback sender recipient senderId recipientId :
  reaches w event h userId before (VObj props) after qr0 h1 queueResults h2 →
  assoc "message" props = Some message → get message "is_echo" = inr (VBool true) →
  assoc "postback" props = Some postback → truthy postback = true →
  assoc "sender" props = Some sender → get sender "id" = inr senderId →
  assoc "recipient" props = Some recipient → get recipient "id" = inr recipientId →
  let write :=
    QueueMessage (VStr userId) (VStr "facebook") senderId recipientId
      (VObj [("mid", VStr ("postback-" +:+ number_to_string (now w h2))); ("postback", postback)])
      (default VUndefined (assoc "timestamp" props)) in
  (∃ response later,
     handler event w h = (inr response, later ++ write :: h2)
     ∧ statusCode response = 200%Z)
  ∧ ∀ queueResult,
      respond w h2 write = inr queueResult → nullish queueResult = false →
      ∃ queueId,
        get queueResult "id" = inr queueId
        ∧ forEvents userId "facebook" (before ++ VObj props :: after) qr0 w h1
          = forEvents userId "facebook" after
              (queueResults
               ++ [VObj [("success", VBool true); ("queueId", queueId);
                         ("platform", VStr "facebook"); ("type", VStr "postback")]])
              w (write :: h2).
Proof.
  intros Hreaches Hm Hecho Hpb Hpbt Hs Hsid Hr Hrid.
  apply (reached_postback_queued w event h userId before props after qr0 h1 queueResults h2
           message (VBool true) postback sender recipient senderId recipientId); auto.
  by rewrite Hm.
Qed.

(** The loop of the request [delivery] reaches the second event of the
    page. *)
Lemma second_event_reached second :
  reaches (mixed second) delivery [] "T1" [VObj text_event] second []
    [] [received (page [VObj text_event; second]); JsonParse (body delivery); no_secret_warning]
    [message_result (VStr "q-1")]
    [QueueMessage (VStr "T1") (VStr "facebook") (VStr "S1") (VStr "P1")
       (VObj [("mid", VStr "m.1"); ("text", VStr "Hello")]) (VNum 1700000000000);
     received (page [VObj text_event; second]); JsonParse (body delivery); no_secret_warning].
Proof.
  exists [no_secret_warning], (page [VObj text_event; second]), (VStr "page"), [],
    (VObj [("id", VStr "P1"); ("messaging", VArr [VObj text_event; second])]), [].
  repeat split; try reflexivity; [discriminate | by left].
Qed.

Lemma postback_only_event_queued_witness :
  ∃ response later,
    handler delivery (mixed postback_event) [] =
      (inr response,
       later
       ++ [QueueMessage (VStr "T1") (VStr "facebook") (VStr "S1") (VStr "P1")
             (VObj [("mid", VStr "postback-1700000000000"); ("postback", postback)])
             (VNum 1700000000000);
           QueueMessage (VStr "T1") (VStr "facebook") (VStr "S1") (VStr "P1")
             (VObj [("mid", VStr "m.1"); ("text", VStr "Hello")]) (VNum 1700000000000);
           received (page [VObj text_event; postback_event]); JsonParse (body delivery);
           no_secret_warning])
    ∧ statusCode response = 200%Z.
Proof.
  destruct (postback_only_event_queued (mixed postback_event) delivery [] "T1"
              [VObj text_event]
              [("sender", party "S1"); ("recipient", party "P1");
               ("timestamp", VNum 1700000000000); ("postback", postback)]
              [] _ _ _ _ postback (party "S1") (party "P1") (VStr "S1") (VStr "P1")
              (second_event_reached postback_event)
              eq_refl eq_refl eq_refl eq_refl eq_refl eq_refl eq_refl)
    as [(response & later & Hrun & Hstatus) _].
  by exists response, later.
Defined.

Lemma echo_with_postback_queued_witness :
  ∃ response later,
    handler delivery (mixed echo_postback_event) [] =
      (inr response,
       later
       ++ [QueueMessage (VStr "T1") (VStr "facebook") (VStr "S1") (VStr "P1")
             (VObj [("mid", VStr "postback-1700000000000"); ("postback", postback)])
             (VNum 1700000000000);
           QueueMessage (VStr "T1") (VStr "facebook") (VStr "S1") (VStr "P1")
             (VObj [("mid", VStr "m.1"); ("text", VStr "Hello")]) (VNum 1700000000000);
           received (page [VObj text_event; echo_postback_event]); JsonParse (body delivery);
           no_secret_warning])
    ∧ statusCode response = 200%Z.
Proof.
  destruct (echo_with_postback_queued (mixed echo_postback_event) delivery [] "T1"
              [VObj text_event]
              [("sender", party "S1"); ("recipient", party "P1");
               ("timestamp", VNum 1700000000000); ("message", echo); ("postback", postback)]
              [] _ _ _ _ echo postback (party "S1") (party "P1") (VStr "S1") (VStr "P1")
              (second_event_reached echo_postback_event)
              eq_refl eq_refl eq_refl eq_refl eq_refl eq_refl eq_refl eq_refl)
    as [(response & later & Hrun & Hstatus) _].
  by exists response, later.
Defined.

(** C7 as stated fails for a postback that follows a refused write: the
    second event of the page is a postback with no message, the exception
    of the first write ends the loop, and the only queue write of the
    request is the refused one. *)
Lemma unreached_postback_counterexample :
  (get postback_event "message" = inr VUndefined
   ∧ get postback_event "postback" = inr postback ∧ truthy postback = true)
  ∧ handler delivery (refusing postback_event) []
    = (inr (json 200 [("status", VStr "error"); ("message", VStr "Error processing webhook");
                      ("error", VStr "queue unavailable")]),
       [Console {| level := Error; text := "Error handling webhook event:";
                   detail := [VObj refused] |};
        QueueMessage (VStr "T1") (VStr "facebook") (VStr "S1") (VStr "P1")
          (VObj [("mid", VStr "m.1"); ("text", VStr "Hello")]) (VNum 1700000000000);
        received (page [VObj text_event; postback_event]); JsonParse (body delivery);
        no_secret_warning]).
Proof. split; [by repeat split|]. vm_compute. reflexivity. Qed.

(** C10 as stated fails for an echo with a postback that names no sender:
    reading the sender's id throws, nothing is written to the queue, and the
    request is answered with the error. *)
Lemma unsigned_echo_counterexample :
  (get (VObj unsigned) "message" = inr echo ∧ get echo "is_echo" = inr (VBool true)
   ∧ get (VObj unsigned) "postback" = inr postback ∧ truthy postback = true)
  ∧ handler delivery (world None (Some (page [VObj unsigned]))) []
    = (inr (json 200 [("status", VStr "error"); ("message", VStr "Error processing webhook");
                      ("error", VStr "Cannot read properties of undefined (reading 'id')")]),
       [Console {| level := Error; text := "Error handling webhook event:";
                   detail := [VObj (TypeError "Cannot read properties of undefined (reading 'id')")] |};
        received (page [VObj unsigned]); JsonParse (body delivery); no_secret_warning]).
Proof. split; [by repeat split|]. vm_compute. reflexivity. Qed.

End HandlerFacts.

(** ** Context updates in the AI reply *)

Module ContextFacts.
Import WebhookHandler HandlerCases ExtractionCases.

(** *** Scanning for markers *)

Lemma append_assoc (a b c : string) : (a +:+ b) +:+ c = a +:+ (b +:+ c).
Proof. induction a as [|x a IH]; [done|]. change (String x ((a +:+ b) +:+ c) = String x (a +:+ (b +:+ c))). by rewrite IH. Qed.

Lemma span_run p run rest :
  all_chars p run = true →
  match rest with String c _ => p c = false | EmptyString => True end →
  span p (run +:+ rest) = (run, rest).
Proof.
  intros Hrun Hrest. induction run as [|c run IH]; simpl in *.
  - destruct rest as [|c rest]; [done|]. simpl. by rewrite Hrest.
  - apply andb_true_iff in Hrun as [-> Hrun]. by rewrite IH.
Qed.

Lemma length_append (a b : string) :
  String.length (a +:+ b) = (String.length a + String.length b)%nat.
Proof. induction a as [|x a IH]; [done|]. change (S (String.length (a +:+ b)) = S (String.length a + String.length b)). by rewrite IH. Qed.

Lemma strip_prefix_append lit s : strip_prefix lit (lit +:+ s) = Some s.
Proof.
  induction lit as [|c lit IH]; [by destruct s|].
  change (strip_prefix (String c lit) (String c (lit +:+ s)) = Some s).
  simpl. by rewrite Ascii.eqb_refl.
Qed.

Lemma match_marker_here k v post :
  all_chars is_key_char k = true → k ≠ EmptyString →
  all_chars is_value_char v = true → v ≠ EmptyString →
  match_marker (marker k v +:+ post) = Some (k, v, String.length (marker k v)).
Proof.
  intros Hk Hk0 Hv Hv0. unfold match_marker, marker.
  rewrite !append_assoc, strip_prefix_append.
  change (Some ?x ≫= ?f) with (f x). cbv beta.
  rewrite (span_run is_key_char k); [|done|done].
  destruct (String.eqb_spec k EmptyString) as [?|_]; [done|].
  rewrite strip_prefix_append. change (Some ?x ≫= ?f) with (f x). cbv beta.
  rewrite (span_run is_value_char v); [|done|done].
  destruct (String.eqb_spec v EmptyString) as [?|_]; [done|].
  rewrite strip_prefix_append. change (Some ?x ≫= ?f) with (f x). cbv beta.
  rewrite !length_append. do 2 f_equal. simpl. lia.
Qed.

Lemma exec_all_skip s post :
  exec_all (String.length s) (s +:+ post) = exec_all 0 post.
Proof.
  induction s as [|c s IH]; simpl; [|done].
  destruct post; reflexivity.
Qed.

Lemma match_marker_none c s :
  c ≠ "["%char → match_marker (String c s) = None.
Proof.
  intros Hc. unfold match_marker.
  change (strip_prefix "[[SET:" (String c s))
    with (if Ascii.eqb "["%char c then strip_prefix "[SET:" s else None).
  by destruct (Ascii.eqb_spec "["%char c) as [<-|_].
Qed.

Lemma exec_all_plain pre s :
  all_chars (λ c, negb (Ascii.eqb c "["%char)) pre = true →
  exec_all 0 (pre +:+ s) = exec_all 0 s.
Proof.
  induction pre as [|c pre IH]; simpl; [done|].
  intros [Hc Hpre]%andb_true_iff. rewrite match_marker_none; [by apply IH|].
  intros ->. done.
Qed.

Lemma exec_all_match c s k v len :
  match_marker (String c s) = Some (k, v, len) →
  exec_all 0 (String c s) = (k, v) :: exec_all (len - 1) s.
Proof. intros Hm. cbn [exec_all]. by rewrite Hm. Qed.

Lemma exec_all_marker pre k v post :
  all_chars (λ c, negb (Ascii.eqb c "["%char)) pre = true →
  all_chars is_key_char k = true → k ≠ EmptyString →
  all_chars is_value_char v = true → v ≠ EmptyString →
  exec_all 0 (pre +:+ marker k v +:+ post) = (k, v) :: exec_all 0 post.
Proof.
  intros Hpre Hk Hk0 Hv Hv0. rewrite exec_all_plain by done.
  pose proof (match_marker_here k v post Hk Hk0 Hv Hv0) as Hm.
  assert (∃ rest, marker k v = String "["%char rest) as [rest Hrest] by (by eexists).
  rewrite Hrest in Hm |- *.
  change (String "[" rest +:+ post) with (String "["%char (rest +:+ post)) in Hm |- *.
  rewrite (exec_all_match _ _ _ _ _ Hm).
  change (String.length (String "[" rest) - 1)%nat with (String.length rest - 0)%nat.
  by rewrite Nat.sub_0_r, exec_all_skip.
Qed.

(** *** What the scan finds is in the text *)

Lemma span_spec p s run after :
  span p s = (run, after) → all_chars p run = true ∧ s = run +:+ after.
Proof.
  revert run after. induction s as [|c s IH]; intros run after; simpl.
  - by intros [= <- <-].
  - destruct (p c) eqn:Hc; [|by intros [= <- <-]].
    destruct (span p s) as [run' after']. intros [= <- <-].
    destruct (IH run' after' eq_refl) as [Hrun ->]. simpl. by rewrite Hc, Hrun.
Qed.

Lemma strip_prefix_spec lit s s' : strip_prefix lit s = Some s' → s = lit +:+ s'.
Proof.
  revert s. induction lit as [|a lit IH]; intros s; simpl.
  - by intros [= ->].
  - destruct s as [|b s]; [done|]. destruct (Ascii.eqb_spec a b) as [->|?]; [|done].
    intros H. by rewrite (IH s H).
Qed.

Lemma match_marker_spec s k v len :
  match_marker s = Some (k, v, len) →
  key k ∧ value v ∧ ∃ post, s = marker k v +:+ post.
Proof.
  unfold match_marker.
  destruct (strip_prefix "[[SET:" s) as [s1|] eqn:H1; [|done].
  change (Some s1 ≫= ?f) with (f s1). cbv beta.
  destruct (span is_key_char s1) as [k' s2] eqn:Hk.
  destruct (String.eqb_spec k' EmptyString) as [?|Hk0]; [done|].
  destruct (strip_prefix "=" s2) as [s3|] eqn:H2; [|done].
  change (Some s3 ≫= ?f) with (f s3). cbv beta.
  destruct (span is_value_char s3) as [v' s4] eqn:Hv.
  destruct (String.eqb_spec v' EmptyString) as [?|Hv0]; [done|].
  destruct (strip_prefix "]]" s4) as [s5|] eqn:H3; [|done].
  change (Some s5 ≫= ?f) with (f s5). cbv beta. intros [= <- <- <-].
  apply span_spec in Hk as [Hk ->]. apply span_spec in Hv as [Hv ->].
  apply strip_prefix_spec in H1 as ->. apply strip_prefix_spec in H2 as ->.
  apply strip_prefix_spec in H3 as ->.
  split; [done|]. split; [done|]. exists s5. unfold marker.
  by rewrite !append_assoc.
Qed.

(** Every match of the scan is a marker of the text. *)
Lemma exec_all_sound skip s k v :
  (k, v) ∈ exec_all skip s →
  key k ∧ value v ∧ ∃ pre post, s = pre +:+ marker k v +:+ post.
Proof.
  revert skip. induction s as [|c s IH]; intros skip; [by intros ?%elem_of_nil|].
  assert (∀ n, (k, v) ∈ exec_all n s →
               key k ∧ value v ∧ ∃ pre post, String c s = pre +:+ marker k v +:+ post) as Hrest.
  { intros n Hin. destruct (IH n Hin) as (Hk & Hv & pre & post & ->).
    split; [done|]. split; [done|]. by exists (String c pre), post. }
  cbn [exec_all]. destruct skip as [|n]; [|by apply Hrest].
  destruct (match_marker (String c s)) as [[[k' v'] len]|] eqn:Hm; [|by apply Hrest].
  intros [[= <- <-] | Hin]%elem_of_cons; [|by eapply Hrest].
  apply match_marker_spec in Hm as (Hk & Hv & post & ->).
  split; [done|]. split; [done|]. by exists EmptyString, post.
Qed.

Lemma all_chars_append p a b : all_chars p (a +:+ b) = all_chars p a && all_chars p b.
Proof.
  induction a as [|c a IH]; [done|].
  change (p c && all_chars p (a +:+ b) = p c && all_chars p a && all_chars p b).
  by rewrite IH, andb_assoc.
Qed.

(** Text without an opening bracket holds no marker. *)
Lemma plain_no_marker post k v a b : plain post → post ≠ a +:+ marker k v +:+ b.
Proof.
  unfold plain. intros Hplain ->. rewrite all_chars_append in Hplain.
  apply andb_true_iff in Hplain as [_ Hplain]. discriminate.
Qed.

(** *** The conversion to a string *)

Lemma to_js_string_cons x xs :
  to_js_string (VArr (x :: xs))
  = match (if nullish x then inr EmptyString else to_js_string x) with
    | inl e => inl e
    | inr first =>
        match xs with
        | [] => inr first
        | _ =>
            match to_js_string (VArr xs) with
            | inl e => inl e
            | inr others => inr (first +:+ "," +:+ others)
            end
        end
    end.
Proof. reflexivity. Qed.

Lemma unprintable_cons x xs :
  unprintable (VArr (x :: xs)) = unprintable x || unprintable (VArr xs).
Proof. reflexivity. Qed.

(** The conversion throws on the values described by [unprintable], a
    [TypeError], and on no other. *)
Lemma to_js_string_cases v :
  match to_js_string v with
  | inl e => unprintable v = true ∧ assoc "name" e = Some (VStr "TypeError")
  | inr _ => unprintable v = false
  end.
Proof.
  induction v as [| |b|n|s|xs IH|props] using Value_nested_ind; try done.
  - induction IH as [|x xs Hx _ IHxs]; [done|].
    rewrite to_js_string_cons, unprintable_cons.
    assert (match (if nullish x then inr EmptyString else to_js_string x) with
            | inl e => unprintable x = true ∧ assoc "name" e = Some (VStr "TypeError")
            | inr _ => unprintable x = false
            end) as Hfirst.
    { destruct (nullish x) eqn:Hnull; [by destruct x | exact Hx]. }
    destruct (if nullish x then inr EmptyString else to_js_string x) as [e|first].
    { destruct Hfirst as [-> ?]. done. }
    rewrite Hfirst. cbn [orb]. destruct xs as [|y ys]; [done|].
    by destruct (to_js_string (VArr (y :: ys))).
  - cbn. destruct (assoc "toString" props) eqn:Hts.
    + split; [|done]. apply bool_decide_eq_true. eauto.
    + apply bool_decide_eq_false. by intros [? ?].
Qed.

Lemma printable_converts v : unprintable v = false → ∃ s, to_js_string v = inr s.
Proof.
  intros Hv. pose proof (to_js_string_cases v) as Hcases.
  destruct (to_js_string v) as [e|s]; [|by exists s]. destruct Hcases. congruence.
Qed.

(** *** Last writer wins *)

Lemma own_assign_ne c k' v' k : k ≠ k' → own (assign c (k', v')) !! k = own c !! k.
Proof.
  intros Hne. unfold assign, set_prototype. cbn [fst snd].
  destruct (_ && _ && _); [by destruct v'|]. cbn [own]. by rewrite lookup_insert_ne.
Qed.

Lemma own_assign_eq c k v : k ≠ "__proto__" → own (assign c (k, v)) !! k = Some v.
Proof.
  intros Hne. unfold assign. cbn [fst snd].
  destruct (String.eqb_spec k "__proto__") as [?|_]; [done|]. cbn [andb own].
  by rewrite lookup_insert_eq.
Qed.

(** Assignments to other keys leave a key as it was. *)
Lemma foldl_assign_other c us k :
  k ∉ us.*1 → own (foldl assign c us) !! k = own c !! k.
Proof.
  revert c. induction us as [|[k' v'] us IH]; intros c Hk; simpl; [done|].
  rewrite fmap_cons, not_elem_of_cons in Hk. destruct Hk as [Hne Hk].
  rewrite IH by done. by apply own_assign_ne.
Qed.

(** The last assignment to a key decides its value. *)
Lemma foldl_assign_last c us1 k v us2 :
  k ≠ "__proto__" → k ∉ us2.*1 →
  own (foldl assign c (us1 ++ (k, v) :: us2)) !! k = Some v.
Proof.
  intros Hproto Hk. rewrite foldl_app. simpl. rewrite foldl_assign_other by done.
  by apply own_assign_eq.
Qed.

Lemma item_updates_returns item :
  well_formed item → ∃ us, item_updates item = inr us.
Proof.
  intros [Hitem Hmessage]. unfold item_updates.
  destruct (get_not_nullish item "type" Hitem) as [type ->].
  fold (payload_of item). fold (message_text item).
  destruct (printable_converts _ Hmessage) as [text ->].
  destruct (_ && _ && _); eauto.
Qed.

(** What an item assigns, it signals. *)
Lemma item_updates_signalled item us k v :
  item_updates item = inr us → (k, v) ∈ us → signalled item k v.
Proof.
  unfold item_updates, signalled.
  destruct (get item "type") as [?|type]; [done|].
  fold (payload_of item). fold (message_text item).
  assert ((k, v) ∈ (if is_str type "set-variables" && truthy (payload_of item)
                    then entries (payload_of item) else []) →
          type = VStr "set-variables" ∧ (k, v) ∈ entries (payload_of item)) as Hvariables.
  { destruct (is_str type "set-variables") eqn:Hset; [|by intros ?%elem_of_nil].
    destruct type as [| | | |s| |]; try discriminate.
    apply String.eqb_eq in Hset as ->. cbn [andb].
    destruct (truthy (payload_of item)); [done | by intros ?%elem_of_nil]. }
  intros Hrun Hin.
  destruct (is_str type "text" && truthy (payload_of item) && truthy (message_text item))
    eqn:Hscan.
  - destruct (to_js_string (message_text item)) as [?|text] eqn:Htext; [done|].
    injection Hrun as <-. apply elem_of_app in Hin as [Hin | Hin].
    + destruct (Hvariables Hin) as [-> ?]. by left.
    + right. assert (type = VStr "text") as ->.
      { destruct type as [| | | |s| |]; try discriminate.
        apply andb_true_iff in Hscan as [[->%String.eqb_eq _]%andb_true_iff _]. done. }
      split; [done|].
      apply list_elem_of_fmap in Hin as ([k' s] & [= -> ->] & Hin).
      apply exec_all_sound in Hin as (Hk & Hv & pre & post & ->). by exists s, pre, post.
  - injection Hrun as <-. destruct (Hvariables Hin) as [-> ?]. by left.
Qed.

(** Items that do not signal [k] leave it as it was. *)
Lemma forEach_item_other items c k :
  Forall well_formed items →
  (∀ i v, i ∈ items → ¬ signalled i k v) →
  ∃ c', forEach_item items c = inr c' ∧ own c' !! k = own c !! k.
Proof.
  revert c. induction items as [|item items IH]; intros c Hobj Hk; simpl; [eauto|].
  apply Forall_cons in Hobj as [Hitem Hobj].
  destruct (item_updates_returns item Hitem) as [us Hus]. rewrite Hus.
  destruct (IH (foldl assign c us) Hobj) as (c' & -> & Hc').
  { intros i v Hi. apply Hk. by right. }
  exists c'. split; [done|]. rewrite Hc'. apply foldl_assign_other.
  intros ([k' v] & Hfst & Hin)%list_elem_of_fmap. simpl in Hfst. subst k'.
  apply (Hk item v); [left|]. by eapply item_updates_signalled.
Qed.

Lemma last_update_wins before item after us1 k v us2 :
  Forall well_formed (before ++ after) →
  item_updates item = inr (us1 ++ (k, v) :: us2) →
  k ≠ "__proto__" → k ∉ us2.*1 →
  (∀ i v', i ∈ after → ¬ signalled i k v') →
  ∃ c, extractContextFromVoiceflowResponse (VArr (before ++ item :: after)) = inr c
       ∧ own c !! k = Some v.
Proof.
  intros [Hbefore Hafter]%Forall_app Hitem Hproto Hk Hlater. simpl.
  generalize (literal ∅).
  induction before as [|b before IH]; intros c; simpl.
  - rewrite Hitem.
    destruct (forEach_item_other after (foldl assign c (us1 ++ (k, v) :: us2)) k Hafter Hlater)
      as (c' & -> & Hc').
    exists c'. split; [done|]. by rewrite Hc', foldl_assign_last.
  - apply Forall_cons in Hbefore as [Hb Hbefore].
    destruct (item_updates_returns b Hb) as [us ->]. by apply IH.
Qed.

Lemma marker_truthy pre k v post : truthy (VStr (pre +:+ marker k v +:+ post)) = true.
Proof. simpl. apply negb_true_iff, String.eqb_neq. by destruct pre. Qed.

(** C8 (amended).  For a reply whose items are objects with messages that
    convert to strings, the returned object holds the updates of both
    kinds as own properties, the last one of a key deciding its value.
    When [k] is not [__proto__] and no later item signals [k]: a pair
    [k: v] of a [set-variables] payload binds [k] to [v]; a match
    [[[SET:k=v]]] that the scan of the message of a [text] item finds binds
    [k] to [v] unless a later match of the message has the same key; and a
    marker [[[SET:k=v]]] that follows bracket-free text binds [k] to [v]
    when no marker of [k] occurs after it. *)
Theorem context_updates_merged before item after k :
  Forall well_formed (before ++ after) →
  k ≠ "__proto__" →
  (∀ i v, i ∈ after → ¬ signalled i k v) →
  (∀ pairs v,
     get item "type" = inr (VStr "set-variables") →
     get item "payload" = inr (VObj pairs) →
     NoDup pairs.*1 → (k, v) ∈ pairs →
     ∃ c, extractContextFromVoiceflowResponse (VArr (before ++ item :: after)) = inr c
          ∧ own c !! k = Some v)
  ∧ (∀ fields message text earlier v later,
       get item "type" = inr (VStr "text") →
       get item "payload" = inr (VObj fields) →
       assoc "message" fields = Some message → truthy message = true →
       to_js_string message = inr text →
       exec_all 0 text = earlier ++ (k, v) :: later →
       k ∉ later.*1 →
       ∃ c, extractContextFromVoiceflowResponse (VArr (before ++ item :: after)) = inr c
            ∧ own c !! k = Some (VStr v))
  ∧ (∀ fields pre v post,
       get item "type" = inr (VStr "text") →
       get item "payload" = inr (VObj fields) →
       assoc "message" fields = Some (VStr (pre +:+ marker k v +:+ post)) →
       plain pre → key k → value v →
       (∀ v' a b, post ≠ a +:+ marker k v' +:+ b) →
       ∃ c, extractContextFromVoiceflowResponse (VArr (before ++ item :: after)) = inr c
            ∧ own c !! k = Some (VStr v)).
Proof.
  intros Hobj Hproto Hlater.
  assert (∀ fields message text earlier v later,
            get item "type" = inr (VStr "text") →
            get item "payload" = inr (VObj fields) →
            assoc "message" fields = Some message → truthy message = true →
            to_js_string message = inr text →
            exec_all 0 text = earlier ++ (k, v) :: later →
            k ∉ later.*1 →
            ∃ c, extractContextFromVoiceflowResponse (VArr (before ++ item :: after)) = inr c
                 ∧ own c !! k = Some (VStr v)) as Hscan.
  { intros fields message text earlier v later Htype Hpayload Hmessage Htruthy Htext Hexec Hlast.
    apply (last_update_wins before item after
             ((λ kv : string * string, (kv.1, VStr kv.2)) <$> earlier) k (VStr v)
             ((λ kv : string * string, (kv.1, VStr kv.2)) <$> later)); try done.
    - unfold item_updates. rewrite Htype, Hpayload. cbn [get]. rewrite Hmessage.
      change (is_str (VStr "text") "set-variables") with false.
      change (is_str (VStr "text") "text") with true.
      cbn [default from_option andb app]. unfold id.
      rewrite Htruthy, Htext, Hexec. by rewrite fmap_app.
    - by rewrite <- list_fmap_compose. }
  split; [|split; [exact Hscan|]].
  - intros pairs v Htype Hpayload Hnodup Hin.
    apply list_elem_of_split in Hin as (us1 & us2 & ->).
    apply (last_update_wins before item after us1 k v us2); try done.
    + unfold item_updates. by rewrite Htype, Hpayload.
    + rewrite fmap_app, fmap_cons in Hnodup. simpl in Hnodup.
      apply NoDup_app in Hnodup as (_ & _ & Hnodup). by apply NoDup_cons in Hnodup as [? _].
  - intros fields pre v post Htype Hpayload Hmessage Hpre [Hk Hk0] [Hv Hv0] Hpost.
    apply (Hscan fields (VStr (pre +:+ marker k v +:+ post)) (pre +:+ marker k v +:+ post)
             [] v (exec_all 0 post)); try done.
    + apply marker_truthy.
    + by rewrite exec_all_marker.
    + intros ([k' v'] & Hfst & Hin)%list_elem_of_fmap. simpl in Hfst. subst k'.
      apply exec_all_sound in Hin as (_ & _ & a & b & Heq). by eapply Hpost.
Qed.

Lemma context_updates_merged_witness :
  ∃ c, extractContextFromVoiceflowResponse
         (VArr [set_variables [("plan", VStr "pro")];
                text_item "Welcome! [[SET:lang=en]] How can I help?"]) = inr c
       ∧ own c !! "lang" = Some (VStr "en").
Proof.
  destruct (context_updates_merged [set_variables [("plan", VStr "pro")]]
              (text_item "Welcome! [[SET:lang=en]] How can I help?") [] "lang")
    as (_ & _ & Hmarker).
  - repeat constructor.
  - discriminate.
  - intros i v Hi. by apply not_elem_of_nil in Hi.
  - apply (Hmarker [("message", VStr "Welcome! [[SET:lang=en]] How can I help?")]
             "Welcome! " "en" " How can I help?"); try reflexivity.
    + split; [reflexivity | discriminate].
    + split; [reflexivity | discriminate].
    + intros v' a b. by apply plain_no_marker.
Defined.

(** C8 as stated fails when a key is set twice: the reply contains the
    marker [[[SET:a=1]]], and the map binds [a] to [2]. *)
Lemma context_updates_counterexample :
  "[[SET:a=1]][[SET:a=2]]" = marker "a" "1" +:+ marker "a" "2"
  ∧ match extractContextFromVoiceflowResponse (VArr [text_item "[[SET:a=1]][[SET:a=2]]"]) with
    | inr c => own c !! "a" = Some (VStr "2")
    | inl _ => False
    end.
Proof. split; [reflexivity|]. vm_compute. reflexivity. Qed.

(** More replies in which a marker of the text is not bound: the key
    [__proto__] on an object that inherits the accessor, and a marker
    inside the value of an earlier match.  Once a [set-variables] pair has
    set the prototype to [null], the same marker does bind [__proto__]. *)
Example proto_marker_not_bound :
  extractContextFromVoiceflowResponse (VArr [text_item "[[SET:__proto__=x]]"])
  = inr (literal ∅).
Proof. vm_compute. reflexivity. Qed.

Example proto_marker_bound_without_prototype :
  match extractContextFromVoiceflowResponse
          (VArr [set_variables [("__proto__", VNull)]; text_item "[[SET:__proto__=x]]"]) with
  | inr c => own c !! "__proto__" = Some (VStr "x") ∧ prototype c = NoPrototype
  | inl _ => False
  end.
Proof. vm_compute. split; reflexivity. Qed.

Example swallowed_marker_not_bound :
  match extractContextFromVoiceflowResponse (VArr [text_item "[[SET:b=[[SET:c=d]]"]) with
  | inr c => own c !! "b" = Some (VStr "[[SET:c=d") ∧ own c !! "c" = None
  | inl _ => False
  end.
Proof. vm_compute. split; reflexivity. Qed.

(** A message that does not convert to a string makes the function throw. *)
Example unprintable_message_throws :
  extractContextFromVoiceflowResponse
    (VArr [VObj [("type", VStr "text");
                 ("payload", VObj [("message", VObj [("toString", VNum 1)])])]])
  = inl (TypeError "Cannot convert object to primitive value").
Proof. reflexivity. Qed.

End ContextFacts.

(** ** Processing one message *)

Module ProcessFacts.
Import WebhookHandler HandlerCases EffectFacts.

Lemma prepare_quiet userId platform senderId recipientId message timestamp :
  emits quiet (prepare userId platform senderId recipientId message timestamp).
Proof.
  unfold prepare, getSocialConnection, getOrCreateConversation, saveUserMessage,
    getVoiceflowMapping, getApiKey, retry_transient.
  emits_quiet.
Qed.

Lemma voiceflow_attempts_quiet userId p :
  emits quiet (retryWithBackoff (callVoiceflow userId p) retry_voiceflow).
Proof. unfold callVoiceflow, retry_voiceflow. emits_quiet. Qed.

Lemma failed_quiet userId platform err : emits quiet (failed userId platform err).
Proof. unfold failed. emits_quiet. Qed.

(** The values the later steps read again were read without an exception on
    the way to the AI call. *)
Lemma prepare_reads w userId platform senderId recipientId message timestamp h0 p h1 :
  prepare userId platform senderId recipientId message timestamp w h0 = (inr p, h1) →
  ∃ text messageId sessionId,
    get (processedMessage p) "text" = inr text
    ∧ get (savedMessage p) "id" = inr messageId
    ∧ get (session p) "id" = inr sessionId.
Proof.
  unfold prepare. intros H.
  step H. branch H; [discriminate|].
  do 13 step H. branch H; [discriminate|].
  do 5 step H. injection H as <- <-. simpl. do 3 eexists. repeat split; eassumption.
Qed.

Lemma failed_result userId platform err w h v h' :
  failed userId platform err w h = (inr v, h') → get v "success" = inr (VBool false).
Proof.
  unfold failed. intros H. do 3 step H.
  branch H; injection H as <- <-; reflexivity.
Qed.

(** The AI exchange once the retries have ended in [err]. *)
Lemma askVoiceflow_fails w userId platform timestamp p h1 err h2 text messageId sessionId :
  retryWithBackoff (callVoiceflow userId p) retry_voiceflow w h1 = (inl err, h2) →
  get (processedMessage p) "text" = inr text →
  get (savedMessage p) "id" = inr messageId →
  get (session p) "id" = inr sessionId →
  ∃ err',
    askVoiceflow userId platform timestamp p w h1
    = (inl err',
       SaveToDeadLetterQueue userId text (message_of err)
         [("platform", platform); ("conversationId", conversationId p);
          ("messageId", messageId); ("timestamp", timestamp); ("sessionId", sessionId)]
       :: h2).
Proof.
  intros Hretry Htext Hmid Hsid. unfold askVoiceflow, try_catch, exchange.
  unfold mbind at 1, M_bind at 1, bind at 1. rewrite Hretry.
  unfold snapshot. rewrite Hmid, Hsid.
  unfold mbind, M_bind, bind, lift, call, throw. rewrite Htext.
  destruct (respond w h2 _); eauto.
Qed.

(** C3.  When the retried AI call ends in an error, one dead-letter record
    is written, with the text of the message, the message of the error and
    the snapshot [platform, conversationId, messageId, timestamp,
    sessionId]; every other effect of the run, before and after, is neither
    a dead letter, nor an assistant [Message] row, nor a request to the send
    API; and a result, when there is one, has [success = false]. *)
Theorem voiceflow_failure_dead_letters w userId platform senderId recipientId message
    timestamp h0 p h1 err h2 :
  prepare userId platform senderId recipientId message timestamp w h0 = (inr p, h1) →
  retryWithBackoff (callVoiceflow userId p) retry_voiceflow w h1 = (inl err, h2) →
  ∃ text messageId sessionId before tail result,
    get (processedMessage p) "text" = inr text
    ∧ get (savedMessage p) "id" = inr messageId
    ∧ get (session p) "id" = inr sessionId
    ∧ h2 = before ++ h0
    ∧ processMessage userId platform senderId recipientId message timestamp w h0
      = (result,
         tail
         ++ SaveToDeadLetterQueue userId text (message_of err)
              [("platform", platform); ("conversationId", conversationId p);
               ("messageId", messageId); ("timestamp", timestamp); ("sessionId", sessionId)]
         :: before ++ h0)
    ∧ Forall quiet (tail ++ before)
    ∧ ∀ v, result = inr v → get v "success" = inr (VBool false).
Proof.
  intros Hprepare Hretry.
  destruct (prepare_reads _ _ _ _ _ _ _ _ _ _ Hprepare) as (text & messageId & sessionId & Htext & Hmid & Hsid).
  destruct (prepare_quiet _ _ _ _ _ _ _ _ _ _ Hprepare) as (new1 & -> & Hnew1).
  destruct (voiceflow_attempts_quiet _ _ _ _ _ _ Hretry) as (new2 & -> & Hnew2).
  destruct (askVoiceflow_fails w userId platform timestamp p _ err _ text messageId sessionId
              Hretry Htext Hmid Hsid) as [err' Hask].
  destruct (failed userId platform err' w
              (SaveToDeadLetterQueue userId text (message_of err)
                 [("platform", platform); ("conversationId", conversationId p);
                  ("messageId", messageId); ("timestamp", timestamp); ("sessionId", sessionId)]
               :: new2 ++ new1 ++ h0)) as [result hf] eqn:Hfailed.
  destruct (failed_quiet _ _ _ _ _ _ _ Hfailed) as (tail & -> & Htail).
  exists text, messageId, sessionId, (new2 ++ new1), tail, result.
  repeat split; try done.
  - by rewrite app_assoc.
  - unfold processMessage, try_catch. unfold mbind at 1, M_bind at 1, bind at 1.
    rewrite Hprepare. unfold mbind at 1, M_bind at 1, bind at 1. rewrite Hask.
    rewrite Hfailed. by rewrite <- !app_assoc.
  - rewrite Forall_app. split; [done|]. by apply Forall_app.
  - intros v ->. by eapply failed_result.
Qed.






(** Exhausting the retries: an AI backend that keeps failing with a
    retryable error is called three times, 1000 ms and 2000 ms apart, and the
    last error is raised; a permanent error is raised after one call. *)
Lemma voiceflow_retries_exhausted w userId p h user key err :
  to_js_string userId = inr user → to_js_string (apiKey p) = inr key →
  (∀ h', respond w h' (interact user key p) = inl err) →
  retryWithBackoff (callVoiceflow userId p) retry_voiceflow w h
  = (inl err,
     if isTransientError w err || server_error err
     then [interact user key p; Sleep 2000; interact user key p; Sleep 1000;
           interact user key p] ++ h
     else interact user key p :: h).
Proof.
  intros Huser Hkey Hfail. unfold retryWithBackoff, callVoiceflow. rewrite Huser, Hkey.
  fold (interact user key p).
  simpl. unfold try_catch, call, lift, mbind, M_bind, bind, transient, ask, ret, sleep, throw.
  rewrite !Hfail. destruct (isTransientError w err || server_error err) eqn:Hretryable; [|done].
  cbv beta. rewrite Hfail, Hretryable. cbv beta. by rewrite Hfail.
Qed.

(** Three timeouts of the AI backend for the message [Hello]. *)
Lemma voiceflow_failure_dead_letters_witness :
  ∃ before tail,
    processMessage (VStr "T1") (VStr "facebook") (VStr "S1") (VStr "P1") greeting
      (VNum 1700000000000) (relay (inl timed_out) (inl unreachable)) []
    = (inr (VObj [("success", VBool false);
                  ("error", VStr "Failed to process message with AI assistant after multiple attempts")]),
       tail
       ++ SaveToDeadLetterQueue (VStr "T1") (VStr "Hello") (VStr "timeout of 15000ms exceeded")
            [("platform", VStr "facebook"); ("conversationId", VStr "c-1");
             ("messageId", VStr "m-1"); ("timestamp", VNum 1700000000000);
             ("sessionId", VStr "s-1")]
       :: before ++ [])
    ∧ Forall quiet (tail ++ before).
Proof.
  edestruct (voiceflow_failure_dead_letters (relay (inl timed_out) (inl unreachable))
               (VStr "T1") (VStr "facebook") (VStr "S1") (VStr "P1") greeting
               (VNum 1700000000000) [])
    as (text & messageId & sessionId & before & tail & result
        & Htext & Hmid & Hsid & _ & Hrun & Hquiet & _).
  - vm_compute. reflexivity.
  - vm_compute. reflexivity.
  - vm_compute in Htext, Hmid, Hsid.
    injection Htext as <-. injection Hmid as <-. injection Hsid as <-.
    exists before, tail. split; [|exact Hquiet].
    rewrite Hrun. f_equal.
    assert ((processMessage (VStr "T1") (VStr "facebook") (VStr "S1") (VStr "P1") greeting
               (VNum 1700000000000) (relay (inl timed_out) (inl unreachable)) []).1
            = inr (VObj [("success", VBool false);
                         ("error", VStr "Failed to process message with AI assistant after multiple attempts")]))
      as Hresult by (vm_compute; reflexivity).
    by rewrite Hrun in Hresult.
Defined.


End ProcessFacts.

(** ** More of the verification endpoint *)

Module VerificationOutcomes.
Import Verification VerificationCases VerificationFacts FaultCases.

(** The checks a request has passed when the lookup decides the answer. *)
Lemma handler_past_checks sb event :
  statusCode (handler sb event).2 ≠ 204%Z →
  statusCode (handler sb event).2 ≠ 405%Z →
  statusCode (handler sb event).2 ≠ 400%Z →
  httpMethod event = "GET"
  ∧ default ∅ (queryStringParameters event) !! "hub.mode" = Some "subscribe"
  ∧ ∃ token, default ∅ (queryStringParameters event) !! "hub.verify_token" = Some token
             ∧ token ≠ EmptyString.
Proof.
  unfold handler.
  destruct (String.eqb_spec (httpMethod event) "OPTIONS") as [?|_]; [done|].
  destruct (String.eqb_spec (httpMethod event) "GET") as [Hget|?]; [|done]. simpl.
  destruct (bool_decide_reflect
              (default ∅ (queryStringParameters event) !! "hub.mode" = Some "subscribe"))
    as [Hmode|?]; [|done]. simpl.
  destruct (default ∅ (queryStringParameters event) !! "hub.verify_token") as [token|] eqn:Ht;
    [|done]. simpl.
  destruct (String.eqb_spec token EmptyString) as [?|Hne]; [done|].
  intros _ _ _. eauto.
Qed.

(** X1.  A handshake is answered 200 only when it is a GET with
    [hub.mode = subscribe] and a non-empty token, the client is initialised,
    the query succeeds and some stored configuration matches the token and
    the path; the body is then the challenge as it was sent. *)
Theorem verified_only_with_known_token sb event :
  statusCode (handler sb event).2 = 200%Z →
  httpMethod event = "GET"
  ∧ default ∅ (queryStringParameters event) !! "hub.mode" = Some "subscribe"
  ∧ ∃ token db c,
      default ∅ (queryStringParameters event) !! "hub.verify_token" = Some token
      ∧ token ≠ EmptyString
      ∧ sb = Some db ∧ fault db = None
      ∧ c ∈ webhook_configs db ∧ matches (path event) token c
      ∧ resp_body (handler sb event).2
        = Some (BodyText (default ∅ (queryStringParameters event) !! "hub.challenge")).
Proof.
  intros H200.
  destruct (handler_past_checks sb event) as (Hget & Hmode & token & Htoken & Hne);
    [congruence..|].
  split; [done|]. split; [done|]. exists token.
  rewrite (handler_lookup sb event token Hget Hmode Htoken Hne) in H200 |- *.
  unfold lookup in *. destruct sb as [db|]; [|done].
  destruct (fault db) as [[m|m]|] eqn:Hf; [done..|].
  set (uid := match path_params (path event) with Some (u, _) => Some u | None => None end) in *.
  set (pf := match path_params (path event) with Some (_, pl) => pl | None => "all" end) in *.
  destruct (filter (λ c, query token uid pf c) (webhook_configs db)) as [|c rest] eqn:Hfilter;
    [done|].
  assert (c ∈ filter (λ c, query token uid pf c) (webhook_configs db)) as Hc
    by (rewrite Hfilter; left).
  apply list_elem_of_filter in Hc as [Hq Hin].
  assert (matches (path event) token c) as Hmatches.
  { apply query_matches. fold uid pf. by destruct (query token uid pf c). }
  exists db, c. by repeat (split; [done|]).
Qed.

Lemma verified_only_with_known_token_witness :
  ∃ c, c ∈ webhook_configs (database (live true))
       ∧ verification_token c = Some "s3cret".
Proof.
  destruct (verified_only_with_known_token (supabase (live true)) (handshake "s3cret") eq_refl)
    as (_ & _ & token & db & c & Htoken & _ & Hdb & _ & Hin & [Hmatch _] & _).
  injection Htoken as <-. injection Hdb as <-. by exists c.
Defined.

(** X2.  The verification endpoint answers 500 only when an initialised
    client's query fails, and only after the mode and token checks have
    passed. *)
Theorem server_error_only_on_fault sb event :
  statusCode (handler sb event).2 = 500%Z →
  ∃ db f, sb = Some db ∧ fault db = Some f
          ∧ httpMethod event = "GET"
          ∧ default ∅ (queryStringParameters event) !! "hub.mode" = Some "subscribe"
          ∧ truthy_str (default ∅ (queryStringParameters event) !! "hub.verify_token") = true.
Proof.
  intros H500.
  destruct (handler_past_checks sb event) as (Hget & Hmode & token & Htoken & Hne);
    [congruence..|].
  rewrite (handler_lookup sb event token Hget Hmode Htoken Hne) in H500.
  unfold lookup in *. destruct sb as [db|]; [|done].
  destruct (fault db) as [f|] eqn:Hf.
  - exists db, f. repeat split; try done. rewrite Htoken. simpl.
    by destruct (String.eqb_spec token EmptyString).
  - by destruct (filter _ _).
Qed.

Lemma server_error_only_on_fault_witness : ∃ f, fault broken = Some f.
Proof.
  destruct (server_error_only_on_fault (Some broken) (handshake "s3cret") eq_refl)
    as (db & f & Hdb & Hf & _).
  injection Hdb as <-. by exists f.
Defined.

End VerificationOutcomes.

(** ** More of the ingestion endpoint *)

Module IngestionFacts.
Import WebhookHandler HandlerCases EffectFacts HandlerFacts IngestionCases.
Import VerificationCases.

(** X3.  A request that is not a POST never reaches the signature check or
    the payload: a GET gets the response and the log lines of the
    verification handler and nothing else, OPTIONS gets 204 and any other
    method 405, without any effect. *)
Theorem non_post_requests w event h :
  httpMethod event ≠ "POST" →
  ∃ response logs,
    handler event w h = (inr response, rev (Console <$> logs) ++ h)
    ∧ (httpMethod event = "GET" →
       (logs, response) = Verification.handler (verification w) event)
    ∧ (httpMethod event ≠ "GET" →
       logs = []
       ∧ statusCode response = if String.eqb (httpMethod event) "OPTIONS" then 204%Z else 405%Z).
Proof.
  intros Hpost. unfold handler.
  destruct (String.eqb_spec (httpMethod event) "OPTIONS") as [Hopt|Hopt].
  { exists {| statusCode := 204; resp_headers := cors; resp_body := None |}, [].
    split; [done|]. split; [congruence | done]. }
  destruct (String.eqb_spec (httpMethod event) "GET") as [Hget|Hget].
  { destruct (Verification.handler (verification w) event) as [logs r] eqn:Hv.
    exists r, logs. split; [done|]. split; [done | congruence]. }
  destruct (String.eqb_spec (httpMethod event) "POST") as [?|_]; [done|].
  eexists _, []. split; [reflexivity|]. split; [congruence | done].
Qed.

Lemma non_post_requests_witness :
  ∃ response logs,
    handler (handshake "s3cret") unparsed [] = (inr response, rev (Console <$> logs) ++ [])
    ∧ (logs, response) = Verification.handler None (handshake "s3cret").
Proof.
  destruct (non_post_requests unparsed (handshake "s3cret") [] ltac:(discriminate))
    as (response & logs & Hrun & Hget & _).
  exists response, logs. split; [exact Hrun | by apply Hget].
Defined.

(** X4.  A POST that has passed the signature check and whose path does
    not name a non-empty tenant and one of the platforms [facebook] and
    [instagram] is answered 400; the body is not parsed and nothing is
    queued: at most the error is logged. *)
Theorem malformed_url_rejected w event h h1 :
  httpMethod event = "POST" →
  authenticate event w h = (inr None, h1) →
  (∀ u pl, path_params (path event) = Some (u, pl) → u ≠ EmptyString →
           pl ≠ "facebook" ∧ pl ≠ "instagram") →
  ∃ response logs,
    handler event w h = (inr response, logs ++ h1)
    ∧ statusCode response = 400%Z
    ∧ Forall (λ e, is_console e = true) logs.
Proof.
  intros Hpost Hauth Hbad.
  unfold handler. rewrite Hpost. simpl. unfold_m. rewrite Hauth.
  unfold accept. destruct (path_params (path event)) as [[u pl]|] eqn:Hpath; simpl.
  - destruct (String.eqb_spec u EmptyString) as [->|Hu]; simpl.
    { eexists _, [_]. split; [reflexivity|]. split; [done | by repeat constructor]. }
    destruct (String.eqb_spec pl EmptyString) as [->|Hpl]; simpl.
    { eexists _, [_]. split; [reflexivity|]. split; [done | by repeat constructor]. }
    destruct (Hbad u pl eq_refl Hu) as [Hfb Hig].
    destruct (String.eqb_spec pl "facebook") as [?|_]; [done|].
    destruct (String.eqb_spec pl "instagram") as [?|_]; [done|]. simpl.
    eexists _, []. split; [reflexivity|]. split; [done | constructor].
  - eexists _, [_]. split; [reflexivity|]. split; [done | by repeat constructor].
Qed.

Lemma malformed_url_rejected_witness :
  ∃ response logs,
    handler misrouted unparsed [] = (inr response, logs ++ [no_secret_warning])
    ∧ statusCode response = 400%Z.
Proof.
  destruct (malformed_url_rejected unparsed misrouted [] [no_secret_warning] eq_refl eq_refl)
    as (response & logs & Hrun & Hstatus & _).
  - intros u pl Hpath. vm_compute in Hpath. discriminate.
  - by exists response, logs.
Defined.

(** X5.  A payload whose [object] is neither [page] nor [instagram] is
    answered 200 [ignored]; after the parse nothing is logged, queued or
    processed. *)
Theorem non_messaging_payload_ignored w userId platform event h payload object :
  respond w h (JsonParse (body event)) = inr payload →
  get payload "object" = inr object →
  is_str object "page" = false → is_str object "instagram" = false →
  ingest userId platform event w h = (inr ignored, JsonParse (body event) :: h).
Proof.
  intros Hparse Hobject Hpage Hig. unfold ingest, processPayload. unfold_m. simpl.
  rewrite Hparse. simpl. rewrite Hobject. simpl. rewrite Hpage, Hig. simpl.
  by rewrite orb_true_r.
Qed.

Lemma non_messaging_payload_ignored_witness :
  ingest "T1" "facebook" delivery profile_update []
  = (inr ignored, [JsonParse (body delivery)]).
Proof.
  apply (non_messaging_payload_ignored profile_update "T1" "facebook" delivery []
           (VObj [("object", VStr "user")]) (VStr "user")); reflexivity.
Defined.



(** X7.  An event of no handled kind is dropped without a trace: a
    Facebook event with neither a message nor a postback, an Instagram
    change of another field, and any event of another platform leave
    [queueResults] and the history as they were. *)
Theorem unknown_event_dropped w h userId platform props queueResults :
  (platform = "facebook"
   ∧ truthy (default VUndefined (assoc "message" props)) = false
   ∧ truthy (default VUndefined (assoc "postback" props)) = false)
  ∨ (platform = "instagram"
     ∧ is_str (default VUndefined (assoc "field" props)) "messages" = false)
  ∨ (platform ≠ "facebook" ∧ platform ≠ "instagram") →
  handleEvent userId platform (VObj props) queueResults w h = (inr queueResults, h).
Proof.
  intros [(-> & Hm & Hpb) | [(-> & Hfield) | (Hfb & Hig)]];
    unfold handleEvent; simpl; unfold_m.
  - by rewrite Hm, Hpb.
  - by rewrite Hfield.
  - destruct (String.eqb_spec platform "instagram") as [?|_]; [done|].
    by destruct (String.eqb_spec platform "facebook") as [?|_].
Qed.

Lemma unknown_event_dropped_witness :
  handleEvent "T1" "facebook" (VObj receipt) [] unparsed [] = (inr [], []).
Proof.
  apply (unknown_event_dropped unparsed [] "T1" "facebook" receipt []).
  left. repeat split; reflexivity.
Defined.



(** *** Counting queue writes *)

Ltac count_event :=
  first [ exists [], []; split; [done|]; split; [by rewrite app_nil_r | done]
        | by eexists [_], [_]
        | by eexists [_; _], [_] ].

Lemma handleEvent_counts userId platform evt queueResults w h queueResults' h' :
  handleEvent userId platform evt queueResults w h = (inr queueResults', h') →
  ∃ new added,
    h' = new ++ h ∧ queueResults' = queueResults ++ added
    ∧ length added = queue_writes new.
Proof.
  unfold handleEvent. unfold_m.
  repeat match goal with
         | |- context [(if ?x then _ else _) _ _] => destruct x eqn:?
         | |- context [match ?x with _ => _ end] => destruct x eqn:?
         end;
    intros [= <- <-]; count_event.
Qed.

Lemma queue_writes_app new1 new2 :
  queue_writes (new1 ++ new2) = (queue_writes new1 + queue_writes new2)%nat.
Proof. unfold queue_writes. by rewrite filter_app, length_app. Qed.

Lemma forEvents_counts userId platform events queueResults w h queueResults' h' :
  forEvents userId platform events queueResults w h = (inr queueResults', h') →
  ∃ new added,
    h' = new ++ h ∧ queueResults' = queueResults ++ added
    ∧ length added = queue_writes new.
Proof.
  revert queueResults h. induction events as [|evt events IH]; intros queueResults h; simpl.
  - intros [= <- <-]. exists [], []. by rewrite app_nil_r.
  - intros H. step H.
    match goal with E : handleEvent _ _ _ _ _ _ = _ |- _ =>
      apply handleEvent_counts in E as (new1 & added1 & -> & -> & Hlen1) end.
    apply IH in H as (new2 & added2 & -> & -> & Hlen2).
    exists (new2 ++ new1), (added1 ++ added2).
    rewrite !app_assoc, length_app, queue_writes_app. repeat split; lia.
Qed.

Lemma handleEntry_counts userId platform entry queueResults w h queueResults' h' :
  handleEntry userId platform entry queueResults w h = (inr queueResults', h') →
  ∃ new added,
    h' = new ++ h ∧ queueResults' = queueResults ++ added
    ∧ length added = queue_writes new.
Proof.
  unfold handleEntry. intros H. step H. step H.
  match goal with E : (if ?c then _ else _) _ _ = (inr _, _) |- _ =>
    destruct c; injection E as _ <- end.
  all: branch H;
    [ injection H as <- <-; exists [], []; by rewrite app_nil_r
    | step H; by eapply forEvents_counts ].
Qed.

Lemma forEntries_counts userId platform entries queueResults w h queueResults' h' :
  forEntries userId platform entries queueResults w h = (inr queueResults', h') →
  ∃ new added,
    h' = new ++ h ∧ queueResults' = queueResults ++ added
    ∧ length added = queue_writes new.
Proof.
  revert queueResults h. induction entries as [|entry entries IH]; intros queueResults h; simpl.
  - intros [= <- <-]. exists [], []. by rewrite app_nil_r.
  - intros H. step H.
    match goal with E : handleEntry _ _ _ _ _ _ = _ |- _ =>
      apply handleEntry_counts in E as (new1 & added1 & -> & -> & Hlen1) end.
    apply IH in H as (new2 & added2 & -> & -> & Hlen2).
    exists (new2 ++ new1), (added1 ++ added2).
    rewrite !app_assoc, length_app, queue_writes_app. repeat split; lia.
Qed.

(** X9.  In a [success] response the number [queued] is the number of
    queue writes the request made; the writes come after the parse and the
    log of the payload, and the call of [processPendingMessages], with limit
    2, is the last effect. *)
Theorem success_counts_queue_writes w userId platform event h queued processed h' :
  ingest userId platform event w h = (inr (success queued processed), h') →
  ∃ payload new,
    respond w h (JsonParse (body event)) = inr payload
    ∧ h' = ProcessPendingMessages 2 :: new ++ [received payload; JsonParse (body event)] ++ h
    ∧ queued = VNum (Z.of_nat (queue_writes new)).
Proof.
  unfold ingest, try_catch.
  destruct (processPayload userId platform event w h) as [[err|response] h1] eqn:Hrun.
  { unfold_m. intros H. unfold success, json in H. cbv beta iota in H. by simplify_eq. }
  intros [= -> ->]. rename Hrun into H. unfold processPayload in H.
  step H.
  match goal with E : try_catch _ _ _ _ = _ |- _ => rename E into Hparse end.
  unfold try_catch in Hparse. unfold_m.
  destruct (respond w h (JsonParse (body event))) as [e|payload] eqn:Hjson.
  { injection Hparse as <- <-. unfold success, json in H. by simplify_eq. }
  injection Hparse as <- <-. cbv beta iota in H.
  destruct (get payload "object") as [?|object]; [done|].
  destruct (_ || _).
  { unfold success, json in H. by simplify_eq. }
  destruct (get payload "entry") as [?|entry]; [done|].
  destruct (iterate _ entry) as [?|entries]; [done|].
  destruct (forEntries _ _ _ _ _ _) as [[?|results] h1] eqn:Hentries; [done|].
  apply forEntries_counts in Hentries as (new & added & -> & -> & Hlen).
  destruct (respond _ _ (ProcessPendingMessages 2)) as [?|pending]; [done|].
  destruct (get pending "processed") as [?|count]; [done|].
  unfold success, json in H. injection H as <- <- <-.
  exists payload, new. split; [done|]. split; [done|].
  simpl in Hlen. by rewrite Hlen.
Qed.

Lemma success_counts_queue_writes_witness :
  ∃ payload new h',
    ingest "T1" "facebook" delivery busy [] = (inr (success (VNum 2) (VNum 0)), h')
    ∧ h' = ProcessPendingMessages 2 :: new
           ++ [received payload; JsonParse (body delivery)] ++ []
    ∧ queue_writes new = 2%nat.
Proof.
  eassert (ingest "T1" "facebook" delivery busy [] = (inr (success (VNum 2) (VNum 0)), _))
    as Hrun by (vm_compute; reflexivity).
  destruct (success_counts_queue_writes _ _ _ _ _ _ _ _ Hrun) as (payload & new & _ & Hh & Hn).
  exists payload, new. eexists. split; [exact Hrun|]. split; [exact Hh|].
  injection Hn as Hn. lia.
Defined.

End IngestionFacts.

(** ** More of [processMessage] *)

Module ProcessingFacts.
Import WebhookHandler HandlerCases EffectFacts HandlerFacts ProcessFacts.
Import IngestionCases ProcessCases.

(** X10.  Without a data-store client [processMessage] fails at once: the
    only call it makes is [processError], with the error [Database
    connection is not available] and the context of line 288; whatever
    follows is a log line, and a result has [success = false] and that
    message. *)
Theorem no_client_fails_fast w userId platform senderId recipientId message timestamp h
    result h' :
  supabase w = false →
  processMessage userId platform senderId recipientId message timestamp w h = (result, h') →
  ∃ logs,
    h' = logs ++ ProcessError no_client (error_context userId platform) :: h
    ∧ Forall (λ e, is_console e = true) logs
    ∧ ∀ v, result = inr v →
        get v "success" = inr (VBool false)
        ∧ get v "error" = inr (VStr "Database connection is not available").
Proof.
  intros Hsb. unfold processMessage, try_catch.
  unfold mbind at 1, M_bind at 1, bind at 1. unfold prepare.
  unfold mbind at 1, M_bind at 1, bind at 1, ask at 1. rewrite Hsb. cbn [negb].
  unfold throw at 1. unfold failed. fold no_client. fold (error_context userId platform).
  unfold_m.
  destruct (respond w h _) as [e|details].
  { intros [= <- <-]. exists []. split; [done|]. split; [constructor | done]. }
  destruct (get details "isTransient") as [e|isTransient].
  { intros [= <- <-]. eexists [_]. split; [done|]. split; [by repeat constructor | done]. }
  destruct (truthy isTransient); intros [= <- <-]; eexists [_];
    (split; [done|]); (split; [by repeat constructor|]); by intros v [= <-].
Qed.

Lemma no_client_fails_fast_witness :
  ∃ result logs,
    processMessage (VStr "T1") (VStr "facebook") (VStr "S1") (VStr "P1") greeting
      (VNum 1700000000000) (without_client (relay (inr answer) (inr VUndefined))) []
    = (result,
       logs ++ [ProcessError no_client (error_context (VStr "T1") (VStr "facebook"))])
    ∧ Forall (λ e, is_console e = true) logs.
Proof.
  eassert (processMessage (VStr "T1") (VStr "facebook") (VStr "S1") (VStr "P1") greeting
             (VNum 1700000000000) (without_client (relay (inr answer) (inr VUndefined))) []
           = (_, _)) as Hrun by (vm_compute; reflexivity).
  destruct (no_client_fails_fast (without_client (relay (inr answer) (inr VUndefined)))
              _ _ _ _ _ _ _ _ _ eq_refl Hrun) as (logs & Hh & Hlogs & _).
  eexists _, logs. split; [|exact Hlogs]. rewrite Hrun. by rewrite Hh.
Defined.


(** What a returning [send] returns. *)
Lemma send_result platform senderId p r w h v h' :
  send platform senderId p r w h = (inr v, h') →
  ∃ messageId sessionId,
    get (assistantMessage r) "id" = inr messageId
    ∧ get (session p) "id" = inr sessionId
    ∧ (v = delivered messageId sessionId ∨ v = undelivered messageId sessionId).
Proof.
  unfold send. intros H. step H.
  match goal with E : try_catch _ _ _ _ = _ |- _ => rename E into Htry end.
  unfold try_catch in Htry.
  match type of Htry with (let (_, _) := ?m in _) = _ =>
    destruct m as [[sendError|none] h1] eqn:Hsend end.
  - do 3 step Htry. injection Htry as <- <-. injection H as <- <-. eauto 6.
  - injection Htry as <- <-. step Hsend. injection Hsend as <- <-.
    do 2 step H. injection H as <- <-. eauto 6.
Qed.

(** X11.  [processMessage] never rejects: whenever [processError] returns
    an object, every run resolves with a result that has a boolean
    [success]. *)
Theorem processMessage_resolves w userId platform senderId recipientId message timestamp h :
  (∀ h e context, ∃ details,
      respond w h (ProcessError e context) = inr details ∧ nullish details = false) →
  ∃ v success h',
    processMessage userId platform senderId recipientId message timestamp w h = (inr v, h')
    ∧ get v "success" = inr (VBool success).
Proof.
  intros Hpe. unfold processMessage, try_catch.
  match goal with |- context [let (_, _) := ?m in _] =>
    destruct m as [[err|v] h1] eqn:Hrun end.
  - unfold failed. unfold_m.
    destruct (Hpe h1 err (error_context userId platform)) as (details & Hdetails & Hobj).
    unfold error_context in Hdetails. rewrite Hdetails.
    destruct (get_not_nullish details "isTransient" Hobj) as [isTransient ->].
    destruct (truthy isTransient); by eexists _, false, _.
  - exists v, true, h1. split; [done|].
    do 2 step Hrun. unfold deliver in Hrun. step Hrun.
    apply send_result in Hrun as (messageId & sessionId & _ & _ & [-> | ->]); reflexivity.
Qed.

Lemma processMessage_resolves_witness :
  ∃ v success h',
    processMessage (VStr "T1") (VStr "facebook") (VStr "S1") (VStr "P1") greeting
      (VNum 1700000000000) (relay (inl timed_out) (inl unreachable)) [] = (inr v, h')
    ∧ get v "success" = inr (VBool success).
Proof.
  apply (processMessage_resolves (relay (inl timed_out) (inl unreachable))).
  intros h e context. by exists (VObj [("isTransient", VBool false)]).
Defined.


(** *** The reply is recorded before it is sent *)

Lemma emits_weaken {A} (P Q : Effect → Prop) (m : M A) :
  (∀ e, P e → Q e) → emits P m → emits Q m.
Proof.
  intros HPQ Hm w h r h' Hrun. destruct (Hm w h r h' Hrun) as (new & -> & Hnew).
  exists new. split; [done|]. by eapply Forall_impl.
Qed.











(** X13.  The AI exchange never fails without a dead-letter record:
    whenever it throws after the preparation has succeeded, the body of its
    [try] (lines 205-216) threw some [cause] (the retried call failed, the
    reply could not be read, or the session could not be updated or
    extended), and the next and last effect is the dead-letter write with
    the text of the message, the message of that [cause] and the snapshot of
    line 222; the exception that leaves the exchange is the fixed [Failed to
    process message ...] error unless the write itself failed. *)
Theorem failed_exchange_dead_letters w userId platform senderId recipientId message timestamp
    h0 p h1 e h2 :
  prepare userId platform senderId recipientId message timestamp w h0 = (inr p, h1) →
  askVoiceflow userId platform timestamp p w h1 = (inl e, h2) →
  ∃ text messageId sessionId cause h,
    get (processedMessage p) "text" = inr text
    ∧ get (savedMessage p) "id" = inr messageId
    ∧ get (session p) "id" = inr sessionId
    ∧ exchange userId p w h1 = (inl cause, h)
    ∧ h2 = SaveToDeadLetterQueue userId text (default VUndefined (assoc "message" cause))
             [("platform", platform); ("conversationId", conversationId p);
              ("messageId", messageId); ("timestamp", timestamp); ("sessionId", sessionId)]
           :: h
    ∧ (e = mkError "Failed to process message with AI assistant after multiple attempts"
       ∨ respond w h
           (SaveToDeadLetterQueue userId text (default VUndefined (assoc "message" cause))
              [("platform", platform); ("conversationId", conversationId p);
               ("messageId", messageId); ("timestamp", timestamp); ("sessionId", sessionId)])
         = inl e).
Proof.
  intros Hprepare.
  destruct (prepare_reads _ _ _ _ _ _ _ _ _ _ Hprepare)
    as (text & messageId & sessionId & Htext & Hmid & Hsid).
  unfold askVoiceflow, try_catch.
  destruct (exchange userId p w h1) as [[cause|v] h] eqn:Hexchange; [|discriminate].
  unfold snapshot. rewrite Hmid, Hsid. unfold_m. rewrite Htext. unfold message_of.
  destruct (respond w h _) as [e'|?] eqn:Hrespond; intros [= <- <-];
    exists text, messageId, sessionId, cause, h; eauto 10.
Qed.

(** The reply holds [null] where an item should be: reading its [type]
    throws, and the dead letter carries the message of that error. *)
Lemma failed_exchange_dead_letters_witness :
  ∃ p h1 e h,
    prepare (VStr "T1") (VStr "facebook") (VStr "S1") (VStr "P1") greeting
      (VNum 1700000000000) (relay (inr malformed) (inl unreachable)) [] = (inr p, h1)
    ∧ askVoiceflow (VStr "T1") (VStr "facebook") (VNum 1700000000000) p
        (relay (inr malformed) (inl unreachable)) h1
      = (inl e,
         SaveToDeadLetterQueue (VStr "T1") (VStr "Hello")
           (VStr "Cannot read properties of null (reading 'type')")
           [("platform", VStr "facebook"); ("conversationId", VStr "c-1");
            ("messageId", VStr "m-1"); ("timestamp", VNum 1700000000000);
            ("sessionId", VStr "s-1")]
         :: h).
Proof.
  eassert (prepare (VStr "T1") (VStr "facebook") (VStr "S1") (VStr "P1") greeting
             (VNum 1700000000000) (relay (inr malformed) (inl unreachable)) [] = (inr _, _))
    as Hprepare by (vm_compute; reflexivity).
  match type of Hprepare with _ = (inr ?p, ?h1) =>
    eassert (askVoiceflow (VStr "T1") (VStr "facebook") (VNum 1700000000000) p
               (relay (inr malformed) (inl unreachable)) h1 = (inl _, _))
      as Hask by (vm_compute; reflexivity) end.
  destruct (failed_exchange_dead_letters _ _ _ _ _ _ _ _ _ _ _ _ Hprepare Hask)
    as (text & messageId & sessionId & cause & h & Htext & Hmid & Hsid & Hcause & Hh & _).
  vm_compute in Htext, Hmid, Hsid, Hcause.
  injection Htext as <-. injection Hmid as <-. injection Hsid as <-.
  injection Hcause as <- <-.
  do 3 eexists. eexists. split; [exact Hprepare|]. rewrite Hask, Hh. reflexivity.
Defined.

(** X14.  For a platform other than [facebook] and [instagram] the send
    step makes no request and no other effect, and the run still returns
    [{success: true, messageId, sessionId}], with no warning. *)
Theorem unsupported_platform_not_sent w platform senderId p r h messageId sessionId :
  is_str platform "facebook" = false → is_str platform "instagram" = false →
  get (assistantMessage r) "id" = inr messageId →
  get (session p) "id" = inr sessionId →
  send platform senderId p r w h
  = (inr (VObj [("success", VBool true); ("messageId", messageId);
                ("sessionId", sessionId)]), h).
Proof.
  intros Hfb Hig Hmid Hsid.
  unfold send, sendResponse, retryWithBackoff, retry_transient. simpl.
  rewrite Hfb, Hig. unfold_m. by rewrite Hmid, Hsid.
Qed.

Lemma unsupported_platform_not_sent_witness :
  send (VStr "whatsapp") (VStr "S1") ready reply (relay (inr answer) (inl unreachable)) []
  = (inr (VObj [("success", VBool true); ("messageId", VStr "m-2");
                ("sessionId", VStr "s-1")]), []).
Proof.
  apply (unsupported_platform_not_sent (relay (inr answer) (inl unreachable))
           (VStr "whatsapp") (VStr "S1") ready reply []); reflexivity.
Defined.

(** X15.  When the lookup finds a conversation, it is returned after one
    update of [last_message_at] and [session_id] on its id, whatever that
    update resolves with (an error in its result is not read), and no row
    is inserted. *)
Theorem existing_conversation_kept w userId platform senderId timestamp session h c rest
    last_message_at sessionId cid outcome :
  respond_query w h (find_conversation userId platform senderId)
  = inr {| data := Some (c :: rest); error := None |} →
  toISOString w timestamp = inr last_message_at →
  get session "id" = inr sessionId →
  get c "id" = inr cid →
  respond_query w (Db (find_conversation userId platform senderId) :: h)
    (touch_conversation last_message_at sessionId cid) = inr outcome →
  getOrCreateConversation userId platform senderId timestamp session w h
  = (inr c, [Db (touch_conversation last_message_at sessionId cid);
             Db (find_conversation userId platform senderId)] ++ h).
Proof.
  intros Hfind Hiso Hsid Hcid Htouch.
  unfold getOrCreateConversation, iso_of. unfold_m.
  fold (find_conversation userId platform senderId). rewrite Hfind. simpl.
  rewrite Hiso, Hsid, Hcid.
  fold (touch_conversation last_message_at sessionId cid). by rewrite Htouch.
Qed.

Lemma existing_conversation_kept_witness :
  getOrCreateConversation (VStr "T1") (VStr "facebook") (VStr "S1") (VNum 1700000000000)
    (VObj [("id", VStr "s-1")]) (read_only (relay (inr answer) (inl unreachable))) []
  = (inr (VObj [("id", VStr "c-1")]),
     [Db (touch_conversation "2023-11-14T22:13:20.000Z" (VStr "s-1") (VStr "c-1"));
      Db (find_conversation (VStr "T1") (VStr "facebook") (VStr "S1"))] ++ []).
Proof.
  apply (existing_conversation_kept (read_only (relay (inr answer) (inl unreachable)))
           (VStr "T1") (VStr "facebook") (VStr "S1") (VNum 1700000000000)
           (VObj [("id", VStr "s-1")]) [] (VObj [("id", VStr "c-1")]) []
           "2023-11-14T22:13:20.000Z" (VStr "s-1") (VStr "c-1")
           {| data := None;
              error := Some [("code", VStr "42501"); ("message", VStr "permission denied")] |});
    reflexivity.
Defined.

End ProcessingFacts.

(** ** More of the context extraction *)

Module ExtractionFacts.
Import WebhookHandler HandlerCases ContextFacts ExtractionCases.

Lemma foldl_assign_lookup c us k v :
  own (foldl assign c us) !! k = Some v →
  own c !! k = Some v ∨ (k, v) ∈ us.
Proof.
  revert c. induction us as [|[k' v'] us IH]; intros c; simpl; [eauto|].
  intros [Hc | Hin]%IH; [|right; by right].
  destruct (decide (k = k')) as [->|Hne]; [|left; by rewrite own_assign_ne in Hc].
  unfold assign, set_prototype in Hc. cbn [fst snd] in Hc.
  destruct (_ && _ && _); [left; by destruct v'|].
  cbn [own] in Hc. rewrite lookup_insert_eq in Hc. injection Hc as ->. right. left.
Qed.

Lemma forEach_item_lookup items c0 c k v :
  forEach_item items c0 = inr c → own c !! k = Some v →
  own c0 !! k = Some v ∨ ∃ item, item ∈ items ∧ signalled item k v.
Proof.
  revert c0. induction items as [|item items IH]; intros c0; simpl.
  - intros [= ->]. by left.
  - destruct (item_updates item) as [?|us] eqn:Hus; [done|]. intros Hrun Hc.
    destruct (IH _ Hrun Hc) as [Hfold | (i & Hi & Hsig)].
    + apply foldl_assign_lookup in Hfold as [? | Hin]; [by left|].
      right. exists item. split; [left|]. by eapply item_updates_signalled.
    + right. exists i. split; [by right | done].
Qed.

(** While [contextUpdates] inherits the accessor and has no own property
    [__proto__], an assignment keeps it so unless it detaches the
    accessor. *)
Lemma assign_keeps_accessor c kv :
  inherits_accessor (prototype c) = true → own c !! "__proto__" = None →
  (inherits_accessor (prototype (assign c kv)) = true
   ∧ own (assign c kv) !! "__proto__" = None)
  ∨ (kv.1 = "__proto__" ∧ detaches kv.2).
Proof.
  intros Hinherits Hown. destruct kv as [k v]. unfold assign. cbn [fst snd].
  destruct (String.eqb_spec k "__proto__") as [->|Hne]; cbn [andb].
  - rewrite Hown, Hinherits. rewrite bool_decide_false by (by intros [? ?]). cbn [negb andb].
    destruct v as [| |b|n|s|xs|props]; cbn [set_prototype prototype own]; eauto.
    + right. split; [done|]. by left.
    + destruct (assoc "__proto__" props) as [x|] eqn:Hkey.
      * right. split; [done|]. right. exists props. split; [done|]. by rewrite Hkey.
      * left. split; [|done]. cbn. rewrite Hkey.
        apply negb_true_iff, bool_decide_eq_false. by intros [? ?].
  - left. cbn [prototype own]. split; [done|]. by rewrite lookup_insert_ne.
Qed.

Lemma foldl_assign_keeps_accessor c us :
  inherits_accessor (prototype c) = true → own c !! "__proto__" = None →
  (inherits_accessor (prototype (foldl assign c us)) = true
   ∧ own (foldl assign c us) !! "__proto__" = None)
  ∨ ∃ x, ("__proto__", x) ∈ us ∧ detaches x.
Proof.
  revert c. induction us as [|[k v] us IH]; intros c Hinherits Hown; simpl; [by left|].
  destruct (assign_keeps_accessor c (k, v) Hinherits Hown) as [[H1 H2] | [Hk Hv]].
  - destruct (IH _ H1 H2) as [? | (x & Hin & Hx)]; [by left|].
    right. exists x. split; [by right | done].
  - simpl in Hk, Hv. subst k. right. exists v. split; [left | done].
Qed.

Lemma forEach_item_keeps_accessor items c0 c :
  inherits_accessor (prototype c0) = true → own c0 !! "__proto__" = None →
  forEach_item items c0 = inr c →
  own c !! "__proto__" = None
  ∨ ∃ item x, item ∈ items ∧ signalled item "__proto__" x ∧ detaches x.
Proof.
  revert c0. induction items as [|item items IH]; intros c0 Hinherits Hown; simpl.
  - intros [= <-]. by left.
  - destruct (item_updates item) as [?|us] eqn:Hus; [done|]. intros Hrun.
    destruct (foldl_assign_keeps_accessor c0 us Hinherits Hown) as [[H1 H2] | (x & Hin & Hx)].
    + destruct (IH _ H1 H2 Hrun) as [? | (i & x & Hi & Hsig & Hx)]; [by left|].
      right. exists i, x. split; [by right | done].
    + right. exists item, x. split; [left|]. split; [|done].
      by eapply item_updates_signalled.
Qed.

(** X16.  [extractContextFromVoiceflowResponse] invents nothing: every own
    property [k = v] of the object it returns is signalled by an item of the
    reply array, either as a pair of a [set-variables] payload or as a
    well-formed marker [[[SET:k=v]]] that occurs in the message of a [text]
    item (the value then being the string [v]); a reply that is not an array
    gives no property.  An own property [__proto__] is there only when an
    earlier signal for [__proto__] detached the inherited accessor, with the
    value [null] or an object that has an own property [__proto__]. *)
Theorem context_binding_signalled voiceflowResponse c k v :
  extractContextFromVoiceflowResponse voiceflowResponse = inr c →
  own c !! k = Some v →
  ∃ items,
    voiceflowResponse = VArr items
    ∧ (∃ item, item ∈ items ∧ signalled item k v)
    ∧ (k = "__proto__" →
       ∃ item x, item ∈ items ∧ signalled item "__proto__" x ∧ detaches x).
Proof.
  unfold extractContextFromVoiceflowResponse.
  destruct voiceflowResponse as [| | | | |items|];
    try (intros [= <-]; cbn [literal own]; by rewrite lookup_empty).
  intros Hrun Hc. exists items. split; [done|]. split.
  - destruct (forEach_item_lookup items (literal ∅) c k v Hrun Hc) as [He | ?]; [|done].
    cbn [literal own] in He. by rewrite lookup_empty in He.
  - intros ->.
    destruct (forEach_item_keeps_accessor items (literal ∅) c eq_refl (lookup_empty _) Hrun)
      as [Hnone | ?]; [congruence | done].
Qed.

Lemma context_binding_signalled_witness :
  ∃ item, item ∈ [text_item "Thanks [[SET:plan=pro]]"] ∧ signalled item "plan" (VStr "pro").
Proof.
  eassert (extractContextFromVoiceflowResponse (VArr [text_item "Thanks [[SET:plan=pro]]"])
           = inr _) as Hrun by (vm_compute; reflexivity).
  destruct (context_binding_signalled _ _ "plan" (VStr "pro") Hrun)
    as (items & Hitems & (item & Hin & Hsig) & _); [vm_compute; reflexivity|].
  injection Hitems as <-. by exists item.
Defined.

(** When the assignments of one item throw. *)
Lemma item_updates_cases item :
  match item_updates item with
  | inl e => (nullish item = true ∨ unreadable item)
             ∧ assoc "name" e = Some (VStr "TypeError")
  | inr _ => nullish item = false ∧ ¬ unreadable item
  end.
Proof.
  unfold item_updates, unreadable. destruct (nullish item) eqn:Hitem.
  { destruct item; try discriminate; simpl; (split; [by left | done]). }
  destruct (get_not_nullish item "type" Hitem) as [type ->].
  fold (payload_of item). fold (message_text item).
  pose proof (to_js_string_cases (message_text item)) as Hmessage.
  destruct (is_str type "text") eqn:Htype.
  - destruct type as [| | | |s| |]; try discriminate.
    apply String.eqb_eq in Htype as ->. cbn [andb].
    destruct (truthy (payload_of item)) eqn:Hpayload; cbn [andb];
      [|split; [done | by intros (_ & ? & _)]].
    destruct (truthy (message_text item)) eqn:Htruthy;
      [|split; [done | by intros (_ & _ & ? & _)]].
    destruct (to_js_string (message_text item)) as [e|text].
    + destruct Hmessage as [Hun Hname]. split; [by right | done].
    + split; [done|]. intros (_ & _ & _ & ?). congruence.
  - cbn [andb]. split; [done|]. intros ([= ->] & _). done.
Qed.

Lemma forEach_item_cases items c0 :
  match forEach_item items c0 with
  | inl e => Exists (λ i, nullish i = true ∨ unreadable i) items
             ∧ assoc "name" e = Some (VStr "TypeError")
  | inr _ => Forall (λ i, nullish i = false ∧ ¬ unreadable i) items
  end.
Proof.
  revert c0. induction items as [|item items IH]; intros c0; simpl; [done|].
  pose proof (item_updates_cases item) as Hitem.
  destruct (item_updates item) as [e|us].
  - destruct Hitem as [Hitem Hname]. split; [by left | done].
  - specialize (IH (foldl assign c0 us)).
    destruct (forEach_item items (foldl assign c0 us)) as [e|c].
    + destruct IH as [Hex Hname]. split; [by right | done].
    + by constructor.
Qed.

(** X17.  [extractContextFromVoiceflowResponse] throws exactly when the
    reply is an array that holds [null] or [undefined], or a [text] item
    with a truthy payload and a truthy message that cannot be converted to a
    string (an object with an own property [toString], or an array holding
    one); what it throws is then a [TypeError]; every other reply gives an
    object. *)
Theorem context_extraction_throws voiceflowResponse :
  ((∃ e, extractContextFromVoiceflowResponse voiceflowResponse = inl e)
   ↔ ∃ items, voiceflowResponse = VArr items
              ∧ Exists (λ i, nullish i = true ∨ unreadable i) items)
  ∧ ∀ e, extractContextFromVoiceflowResponse voiceflowResponse = inl e →
         assoc "name" e = Some (VStr "TypeError").
Proof.
  unfold extractContextFromVoiceflowResponse.
  destruct voiceflowResponse as [| | | | |items|];
    try (split; [split; [by intros [? ?] | by intros (? & ? & ?)] | done]).
  pose proof (forEach_item_cases items (literal ∅)) as Hcases.
  destruct (forEach_item items (literal ∅)) as [e|c].
  - destruct Hcases as [Hex Hname]. split; [|by intros ? [= <-]].
    split; [intros _; by exists items | intros _; by exists e].
  - split; [|done]. split; [by intros [? ?]|].
    intros (items' & [= <-] & Hex). apply Exists_exists in Hex as (i & Hin & Hi).
    rewrite Forall_forall in Hcases. destruct (Hcases i Hin) as [Hobj Hreadable].
    destruct Hi as [? | ?]; [congruence | done].
Qed.

End ExtractionFacts.

(** ** Generated URLs *)

Module SetupFacts.
Import Verification VerificationCases VerificationFacts AdminWebhookSetup SetupCases.

Lemma split_slash_nonempty s : split_slash s ≠ [].
Proof. destruct s as [|c s]; simpl; [done|]. destruct (split_slash s); [done|]. by destruct (Ascii.eqb c "/"). Qed.

Lemma split_slash_segment a rest :
  segment a → split_slash (a +:+ "/" +:+ rest) = a :: split_slash rest.
Proof.
  unfold segment. induction a as [|c a IH]; intros Ha.
  - change (EmptyString +:+ "/" +:+ rest) with (String "/"%char rest). cbn [split_slash].
    pose proof (split_slash_nonempty rest). by destruct (split_slash rest).
  - cbn [HandlerCases.all_chars] in Ha. apply andb_true_iff in Ha as [Hc Ha].
    change (String c a +:+ "/" +:+ rest) with (String c (a +:+ "/" +:+ rest)).
    cbn [split_slash]. rewrite (IH Ha). apply negb_true_iff in Hc. by rewrite Hc.
Qed.

Lemma append_cancel (a b c : string) : a +:+ b = a +:+ c → b = c.
Proof. induction a as [|x a IH]; [done|]. intros [= H]. by apply IH. Qed.

(** The handlers read the tenant and the platform of a generated URL back
    from its path. *)
Lemma generated_path_params origin timestamp random webhook channel_name patch p :
  generateWebhookUrl origin timestamp random webhook channel_name = inr patch →
  segment (default EmptyString (user_id webhook)) → segment (url_platform webhook) →
  generated_url patch = origin +:+ p →
  truthy_str (user_id webhook) = true
  ∧ path_params p = Some (default EmptyString (user_id webhook), url_platform webhook).
Proof.
  unfold generateWebhookUrl. fold (url_platform webhook).
  destruct (truthy_str (user_id webhook)) eqn:Huser; [|done]. cbn [negb].
  intros [= <-] Hu Hpl. cbn [generated_url]. intros <-%append_cancel. split; [done|].
  unfold path_params.
  change ("/api/webhooks/" +:+ ?x)
    with (EmptyString +:+ "/" +:+ ("api" +:+ "/" +:+ ("webhooks" +:+ "/" +:+ x))).
  rewrite !split_slash_segment by done.
  pose proof (split_slash_nonempty
                ((if truthy_str channel_name then default EmptyString channel_name else "default")
                 +:+ "/" +:+ WebhookHandler.number_to_string timestamp)) as Hrest.
  destruct (split_slash _) as [|seg segs]; [done|].
  rewrite bool_decide_true by (simpl; lia). by rewrite bool_decide_true.
Qed.


(** X18.  The URL the admin screen generates for a configuration verifies
    against it: when the stored row has the tenant and the platform of the
    configuration and the token of the patch (tenant and platform without
    [/], the token not empty) and the query succeeds, a handshake on the
    path of the generated URL with that token is answered 200 with the
    challenge. *)
Theorem generated_url_verifies origin timestamp random webhook channel_name patch db c event :
  generateWebhookUrl origin timestamp random webhook channel_name = inr patch →
  segment (default EmptyString (user_id webhook)) → segment (url_platform webhook) →
  new_verification_token patch ≠ EmptyString →
  fault db = None → c ∈ webhook_configs db →
  user_id c = user_id webhook → platform c = platform webhook →
  verification_token c = Some (new_verification_token patch) →
  httpMethod event = "GET" →
  generated_url patch = origin +:+ path event →
  default ∅ (queryStringParameters event) !! "hub.mode" = Some "subscribe" →
  default ∅ (queryStringParameters event) !! "hub.verify_token"
  = Some (new_verification_token patch) →
  statusCode (handler (Some db) event).2 = 200%Z
  ∧ resp_body (handler (Some db) event).2
    = Some (BodyText (default ∅ (queryStringParameters event) !! "hub.challenge")).
Proof.
  intros Hgen Hu Hpl Htoken0 Hfault Hin Huser Hplatform Htoken Hget Hurl Hmode Hverify.
  destruct (generated_path_params _ _ _ _ _ _ _ Hgen Hu Hpl Hurl) as [Htruthy Hpath].
  rewrite (handler_lookup (Some db) event _ Hget Hmode Hverify Htoken0), Hpath.
  unfold lookup. rewrite Hfault.
  assert (query (new_verification_token patch) (Some (default EmptyString (user_id webhook)))
            (url_platform webhook) c = true) as Hquery.
  { unfold query, eq_col. rewrite Htoken, Huser, Hplatform, bool_decide_true by done.
    destruct (user_id webhook) as [u|] eqn:Hu'; [|done]. simpl in Htruthy |- *.
    rewrite Htruthy, bool_decide_true by done. simpl.
    unfold url_platform. destruct (platform webhook) as [pl|]; simpl; [|done].
    destruct (String.eqb_spec pl EmptyString) as [->|Hpl0]; simpl; [done|].
    destruct (String.eqb_spec pl EmptyString); [done|]. simpl.
    destruct (String.eqb pl "all"); [done|]. simpl. by rewrite bool_decide_true. }
  destruct (filter _ (webhook_configs db)) as [|c' rest] eqn:Hfilter; [|done].
  exfalso. eapply (proj1 (filter_nonempty _ _)); [|exact Hfilter]. by exists c.
Qed.

Lemma generated_url_verifies_witness :
  statusCode (handler (Some (database (live true))) generated_handshake).2 = 200%Z
  ∧ resp_body (handler (Some (database (live true))) generated_handshake).2
    = Some (BodyText (Some "1158201444")).
Proof.
  eassert (generateWebhookUrl "https://app.example" 1700000000000 "r4nd0m" (config true) None
           = inr _) as Hgen by (vm_compute; reflexivity).
  apply (generated_url_verifies _ _ _ _ _ _ (database (live true)) (config true)
           generated_handshake Hgen); try reflexivity; try done.
  left.
Defined.


(** X19.  A POST to the path of a generated URL that has passed the
    signature check is ingested under the tenant and the platform of the
    configuration when that platform is [facebook] or [instagram]; for any
    other platform, and for a configuration without one (segment [all]),
    it is answered 400 with nothing parsed or queued. *)
Theorem generated_url_ingests origin timestamp random webhook channel_name patch event w h h1 :
  generateWebhookUrl origin timestamp random webhook channel_name = inr patch →
  segment (default EmptyString (user_id webhook)) → segment (url_platform webhook) →
  httpMethod event = "POST" →
  generated_url patch = origin +:+ path event →
  WebhookHandler.authenticate event w h = (inr None, h1) →
  (url_platform webhook = "facebook" ∨ url_platform webhook = "instagram" →
   WebhookHandler.handler event w h
   = WebhookHandler.ingest (default EmptyString (user_id webhook)) (url_platform webhook)
       event w h1)
  ∧ (url_platform webhook ≠ "facebook" → url_platform webhook ≠ "instagram" →
     ∃ response, WebhookHandler.handler event w h = (inr response, h1)
                 ∧ statusCode response = 400%Z).
Proof.
  intros Hgen Hu Hpl Hpost Hurl Hauth.
  destruct (generated_path_params _ _ _ _ _ _ _ Hgen Hu Hpl Hurl) as [Htruthy Hpath].
  assert (url_platform webhook ≠ EmptyString) as Hpl0.
  { unfold url_platform. destruct (platform webhook) as [pl|]; simpl; [|done].
    by destruct (String.eqb_spec pl EmptyString). }
  assert (WebhookHandler.handler event w h = WebhookHandler.accept event w h1) as ->.
  { unfold WebhookHandler.handler. rewrite Hpost. simpl.
    unfold mbind, WebhookHandler.M_bind, WebhookHandler.bind. by rewrite Hauth. }
  unfold WebhookHandler.accept. rewrite Hpath.
  destruct (user_id webhook) as [u|]; [|done]. simpl in Htruthy |- *. rewrite Htruthy. simpl.
  destruct (String.eqb_spec (url_platform webhook) EmptyString) as [?|_]; [done|]. simpl.
  destruct (String.eqb_spec (url_platform webhook) "facebook") as [Hfb|Hfb]; simpl.
  { split; [done|]. by intros ?. }
  destruct (String.eqb_spec (url_platform webhook) "instagram") as [Hig|Hig]; simpl.
  { split; [done|]. by intros ? ?. }
  split; [by intros [?|?]|]. intros _ _. by eexists.
Qed.

Lemma generated_url_ingests_witness :
  WebhookHandler.handler generated_delivery HandlerCases.unparsed []
  = WebhookHandler.ingest "T1" "facebook" generated_delivery HandlerCases.unparsed
      [HandlerCases.no_secret_warning].
Proof.
  eassert (generateWebhookUrl "https://app.example" 1700000000000 "r4nd0m" (config true) None
           = inr _) as Hgen by (vm_compute; reflexivity).
  apply (generated_url_ingests _ _ _ _ _ _ generated_delivery HandlerCases.unparsed []
           [HandlerCases.no_secret_warning] Hgen eq_refl eq_refl eq_refl eq_refl eq_refl).
  by left.
Defined.

End SetupFacts.
